(** * DoodleJumpGame/main.cpp: the frame loop of the jumper game

    A shallow embedding of [GameObject], [Platform], [Player] and [Game]
    and of one iteration of the loop of [Game::run].

    Numbers.  Positions and velocities are C++ [float]s.  They are
    modelled as IEEE-754 binary32 values ([spec_float] with a 24-bit
    significand and [emax = 128]); every arithmetic operation rounds to
    nearest-even into binary32, as compilers that evaluate [float]
    expressions in [float] do.  [int] is a 32-bit two's-complement
    integer carried by [Z].

    Effects.  [rand()] reads a sequence fixed by [srand(time(0))];
    the calls to the window, the keyboard and the sound are recorded in
    the [effects] log of the game or taken from the input of the frame. *)

From Stdlib Require Import ZArith NArith List Bool Lia String Zpower.
From Stdlib Require Import Floats.SpecFloat.
From Stdlib Require Import Numbers.DecimalString.
From Stdlib Require Numbers.DecimalPos Numbers.DecimalZ.
Import ListNotations.
Open Scope Z_scope.

(** ** binary32 *)

Module F32.

Definition prec : Z := 24.
Definition emax : Z := 128.

Definition float : Type := spec_float.

Definition add : float -> float -> float := SFadd prec emax.
Definition sub : float -> float -> float := SFsub prec emax.
Definition div : float -> float -> float := SFdiv prec emax.
Definition neg : float -> float := SFopp.

(** [a < b] and [a > b]; both are false when an operand is a NaN. *)
Definition ltb : float -> float -> bool := SFltb.
Definition gtb (a b : float) : bool := SFltb b a.
Definition leb : float -> float -> bool := SFleb.

(** Conversion of an [int] to [float]. *)
Definition of_int (n : Z) : float := binary_normalize prec emax n 0 false.

(** The literal [0.2f]: the binary32 value nearest to 1/5. *)
Definition lit_0_2 : float := S754_finite false 13421773 (-26).

Definition valid (a : float) : bool := valid_binary prec emax a.

End F32.

(** ** int *)

Definition INT_MAX : Z := 2147483647.

(** The value an [int] holds after a result [z] has been stored in it.
    Signed overflow is undefined in C++; the model wraps, and every
    statement about a counter says when it stays in range. *)
Definition wrap_int (z : Z) : Z := (z + 2 ^ 31) mod 2 ^ 32 - 2 ^ 31.

(** [n++] on an [int]. *)
Definition incr_score (n : Z) : Z := wrap_int (n + 1).

(** ** sf::Vector2f *)

Module Vector2f.
Record t : Type := mk { x : F32.float; y : F32.float }.
End Vector2f.

(** ** class Platform : public GameObject *)

Module Platform.

Record t : Type := mk { position : Vector2f.t }.

(** [Platform(float x, float y) : GameObject(x, y)] *)
Definition new (x y : F32.float) : t := mk (Vector2f.mk x y).

Definition getPosition (p : t) : Vector2f.t := position p.

Definition setPosition (p : t) (x y : F32.float) : t := mk (Vector2f.mk x y).

(** [position.y -= dy] *)
Definition move (p : t) (dy : F32.float) : t :=
  mk (Vector2f.mk (Vector2f.x (position p))
                  (F32.sub (Vector2f.y (position p)) dy)).

End Platform.

(** ** class Player : public GameObject *)

Module Player.

Record t : Type := mk { position : Vector2f.t; dx : F32.float; dy : F32.float }.

(** [Player() : GameObject(200, 200), dx(0.0f), dy(0.0f)] *)
Definition new : t :=
  mk (Vector2f.mk (F32.of_int 200) (F32.of_int 200)) (F32.of_int 0) (F32.of_int 0).

Definition getPosition (p : t) : Vector2f.t := position p.

Definition setPosition (p : t) (x y : F32.float) : t :=
  mk (Vector2f.mk x y) (dx p) (dy p).

(** [position.x -= 5.0f] *)
Definition moveLeft (p : t) : t :=
  mk (Vector2f.mk (F32.sub (Vector2f.x (position p)) (F32.of_int 5))
                  (Vector2f.y (position p)))
     (dx p) (dy p).

(** [position.x += 5.0f] *)
Definition moveRight (p : t) : t :=
  mk (Vector2f.mk (F32.add (Vector2f.x (position p)) (F32.of_int 5))
                  (Vector2f.y (position p)))
     (dx p) (dy p).

(** [dy += 0.2f; position.y += dy;] *)
Definition applyGravity (p : t) : t :=
  let dy' := F32.add (dy p) F32.lit_0_2 in
  mk (Vector2f.mk (Vector2f.x (position p))
                  (F32.add (Vector2f.y (position p)) dy'))
     (dx p) dy'.

(** [dy = -8.0f] *)
Definition jump (p : t) : t :=
  mk (position p) (dx p) (F32.neg (F32.of_int 8)).

(** [position = {200, 200}; dx = 0; dy = 0;] *)
Definition reset (p : t) : t :=
  mk (Vector2f.mk (F32.of_int 200) (F32.of_int 200)) (F32.of_int 0) (F32.of_int 0).

Definition getVelocityY (p : t) : F32.float := dy p.

Definition update (p : t) : t := applyGravity p.

End Player.

(** ** What the game does to the window, the sound and [std::cerr] *)

Inductive effect : Type :=
| LogError (msg : string)
| SoundPlay
| WindowClear
| DrawBackground
| DrawGameOverText
| DrawRetryText
| DrawPlayer (pos : Vector2f.t)
| DrawPlatform (pos : Vector2f.t)
| DrawScoreText (text : string)
| WindowDisplay.

(** ** What one iteration of the loop of [run] reads *)

(** An event returned by [window.pollEvent], with the state of the
    keyboard at the time the event is handled. *)
Record Event : Type := mkEvent {
  ev_closed : bool;
  ev_key_R : bool;
  ev_key_Escape : bool
}.

Record FrameInput : Type := mkInput {
  events : list Event;
  key_Left : bool;
  key_Right : bool
}.

(** ** class Game *)

Record Game : Type := mkGame {
  window_isOpen : bool;
  player : Player.t;
  platforms : list Platform.t;
  score : Z;
  gameOver : bool;
  scoreText : string;
  rand_calls : nat;
  effects : list effect
}.

Definition set_window_isOpen (b : bool) (g : Game) : Game :=
  mkGame b (player g) (platforms g) (score g) (gameOver g) (scoreText g)
         (rand_calls g) (effects g).
Definition set_player (p : Player.t) (g : Game) : Game :=
  mkGame (window_isOpen g) p (platforms g) (score g) (gameOver g) (scoreText g)
         (rand_calls g) (effects g).
Definition set_platforms (ps : list Platform.t) (g : Game) : Game :=
  mkGame (window_isOpen g) (player g) ps (score g) (gameOver g) (scoreText g)
         (rand_calls g) (effects g).
Definition set_score (n : Z) (g : Game) : Game :=
  mkGame (window_isOpen g) (player g) (platforms g) n (gameOver g) (scoreText g)
         (rand_calls g) (effects g).
Definition set_gameOver (b : bool) (g : Game) : Game :=
  mkGame (window_isOpen g) (player g) (platforms g) (score g) b (scoreText g)
         (rand_calls g) (effects g).
Definition set_scoreText (s : string) (g : Game) : Game :=
  mkGame (window_isOpen g) (player g) (platforms g) (score g) (gameOver g) s
         (rand_calls g) (effects g).
Definition set_rand_calls (n : nat) (g : Game) : Game :=
  mkGame (window_isOpen g) (player g) (platforms g) (score g) (gameOver g)
         (scoreText g) n (effects g).
Definition emit (e : effect) (g : Game) : Game :=
  mkGame (window_isOpen g) (player g) (platforms g) (score g) (gameOver g)
         (scoreText g) (rand_calls g) (effects g ++ [e]).

(** The part of a game that the simulation owns: everything but the
    window and the log. *)
Definition core (g : Game) :
  Player.t * list Platform.t * Z * bool * string * nat :=
  (player g, platforms g, score g, gameOver g, scoreText g, rand_calls g).

Section GameModel.

(** The values that successive calls of [rand()] return after
    [srand(time(0))]; they are never negative. *)
Variable rand_seq : nat -> N.

(** The order in which the two [rand()] arguments of [emplace_back]
    are evaluated is unspecified: [true] when the first is evaluated
    first. *)
Variable args_left_to_right : bool.

Definition rand (g : Game) : Z * Game :=
  (Z.of_N (rand_seq (rand_calls g)), set_rand_calls (S (rand_calls g)) g).

(** [ss << "Score: " << score; scoreText.setString(ss.str());] *)
Definition updateScoreText (g : Game) : Game :=
  set_scoreText ("Score: " ++ NilZero.string_of_int (Z.to_int (score g))) g.

(** [platforms.emplace_back(rand() % 500, rand() % 700)], [n] times. *)
Fixpoint emplace_platforms (n : nat) (g : Game) : Game :=
  match n with
  | O => g
  | S k =>
      let '(a, g1) := rand g in
      let '(b, g2) := rand g1 in
      let '(rx, ry) := if args_left_to_right then (a, b) else (b, a) in
      emplace_platforms k
        (set_platforms
           (platforms g2 ++
              [Platform.new (F32.of_int (Z.rem rx 500)) (F32.of_int (Z.rem ry 700))])
           g2)
  end.

Definition resetGame (g : Game) : Game :=
  let g := set_player (Player.reset (player g)) g in
  let g := set_score 0 g in
  let g := set_gameOver false g in
  let g := set_platforms [] g in
  let g := emplace_platforms 10 g in
  updateScoreText g.

Definition handleInput (inp : FrameInput) (g : Game) : Game :=
  let g := if key_Left inp then set_player (Player.moveLeft (player g)) g else g in
  if key_Right inp then set_player (Player.moveRight (player g)) g else g.

(** The test of [handleCollisions] without its last conjunct:
    [plPos] is the position of the player, [pPos] of the platform. *)
Definition boxes_overlap (plPos pPos : Vector2f.t) : bool :=
  F32.gtb (F32.add (Vector2f.x plPos) (F32.of_int 50)) (Vector2f.x pPos)
  && F32.ltb (F32.add (Vector2f.x plPos) (F32.of_int 20))
             (F32.add (Vector2f.x pPos) (F32.of_int 68))
  && F32.gtb (F32.add (Vector2f.y plPos) (F32.of_int 70)) (Vector2f.y pPos)
  && F32.ltb (F32.add (Vector2f.y plPos) (F32.of_int 70))
             (F32.add (Vector2f.y pPos) (F32.of_int 14)).

(** The body of the loop of [handleCollisions]. *)
Definition collide (g : Game) (platform : Platform.t) : Game :=
  let pPos := Platform.getPosition platform in
  let plPos := Player.getPosition (player g) in
  if boxes_overlap plPos pPos
     && F32.gtb (Player.getVelocityY (player g)) (F32.of_int 0)
  then emit SoundPlay (set_player (Player.jump (player g)) g)
  else g.

Definition handleCollisions (g : Game) : Game :=
  fold_left collide (platforms g) g.

(** The body of the loop of [updatePlatforms], on one platform. *)
Definition update_platform (platform : Platform.t) (g : Game) : Platform.t * Game :=
  let platform := Platform.move platform (Player.getVelocityY (player g)) in
  if F32.gtb (Vector2f.y (Platform.getPosition platform)) (F32.of_int 700)
  then
    let '(r, g) := rand g in
    (Platform.setPosition platform (F32.of_int (Z.rem r 500)) (F32.of_int 0),
     set_score (incr_score (score g)) g)
  else (platform, g).

(** The loop of [updatePlatforms]: the platforms are updated in
    place, first to last. *)
Fixpoint update_each (ps : list Platform.t) (g : Game) : list Platform.t * Game :=
  match ps with
  | [] => ([], g)
  | p :: rest =>
      let '(p', g) := update_platform p g in
      let '(rest', g) := update_each rest g in
      (p' :: rest', g)
  end.

Definition updatePlatforms (g : Game) : Game :=
  let '(ps, g) := update_each (platforms g) g in
  updateScoreText (set_platforms ps g).

Definition draw (g : Game) : Game :=
  let g := emit WindowClear g in
  let g :=
    if gameOver g then
      emit DrawRetryText (emit DrawGameOverText (emit DrawBackground g))
    else
      let g := emit DrawBackground g in
      let g := emit (DrawPlayer (Player.getPosition (player g))) g in
      let g := fold_left (fun g p => emit (DrawPlatform (Platform.getPosition p)) g)
                         (platforms g) g in
      emit (DrawScoreText (scoreText g)) g in
  emit WindowDisplay g.

(** [Game()]: [font_ok] and [sound_ok] tell whether the font and the
    sound were loaded; the results of loading the textures are not
    looked at. *)
Definition Game_new (font_ok sound_ok : bool) : Game :=
  let g := mkGame true Player.new [] 0 false "" 0 [] in
  if negb font_ok then emit (LogError "Failed to load font") g
  else if negb sound_ok then emit (LogError "Failed to load sound_jump.wav") g
  else resetGame g.

(** The loop [while (window.pollEvent(e))]; once the window is closed
    [pollEvent] returns no event. *)
Fixpoint pollEvents (evs : list Event) (g : Game) : Game :=
  match evs with
  | [] => g
  | e :: rest =>
      if window_isOpen g then
        let g := if ev_closed e then set_window_isOpen false g else g in
        let g :=
          if gameOver g then
            if ev_key_R e then resetGame g
            else if ev_key_Escape e then set_window_isOpen false g
            else g
          else g in
        pollEvents rest g
      else g
  end.

(** One iteration of [while (window.isOpen())]. *)
Definition frame (inp : FrameInput) (g : Game) : Game :=
  let g := pollEvents (events inp) g in
  let g :=
    if negb (gameOver g) then
      let g := handleInput inp g in
      let g := set_player (Player.update (player g)) g in
      let g :=
        if F32.gtb (Vector2f.y (Player.getPosition (player g))) (F32.of_int 700)
        then set_gameOver true g else g in
      let g :=
        if F32.ltb (Vector2f.y (Player.getPosition (player g))) (F32.of_int 300)
        then
          let offset :=
            F32.sub (F32.of_int 300) (Vector2f.y (Player.getPosition (player g))) in
          let g :=
            set_player
              (Player.setPosition (player g)
                 (Vector2f.x (Player.getPosition (player g))) (F32.of_int 300)) g in
          set_platforms
            (map (fun p => Platform.move p (F32.neg offset)) (platforms g)) g
        else g in
      let g := updatePlatforms g in
      handleCollisions g
    else g in
  draw g.

(** [run], on the inputs of its first iterations. *)
Fixpoint run (inputs : list FrameInput) (g : Game) : Game :=
  match inputs with
  | [] => g
  | inp :: rest => if window_isOpen g then run rest (frame inp g) else g
  end.

(** *** The steps of a frame, one by one

    [frame] above follows the text of [run]; here each step of the
    branch [if (!gameOver)] is a function of its own. *)

(** [player.update()] *)
Definition playerUpdate (g : Game) : Game :=
  set_player (Player.update (player g)) g.

(** [if (player.getPosition().y > 700) gameOver = true;] *)
Definition fallOutCheck (g : Game) : Game :=
  if F32.gtb (Vector2f.y (Player.getPosition (player g))) (F32.of_int 700)
  then set_gameOver true g else g.

(** [if (player.getPosition().y < 300) { ... }] *)
Definition scrollUp (g : Game) : Game :=
  if F32.ltb (Vector2f.y (Player.getPosition (player g))) (F32.of_int 300)
  then
    let offset :=
      F32.sub (F32.of_int 300) (Vector2f.y (Player.getPosition (player g))) in
    let g :=
      set_player
        (Player.setPosition (player g)
           (Vector2f.x (Player.getPosition (player g))) (F32.of_int 300)) g in
    set_platforms (map (fun p => Platform.move p (F32.neg offset)) (platforms g)) g
  else g.

(** The branch [if (!gameOver)] of [run], step after step. *)
Definition physics (inp : FrameInput) (g : Game) : Game :=
  handleCollisions
    (updatePlatforms (scrollUp (fallOutCheck (playerUpdate (handleInput inp g))))).

(** What [draw] sends to the window. *)
Definition presentation (g : Game) : list effect :=
  [WindowClear]
    ++ (if gameOver g then [DrawBackground; DrawGameOverText; DrawRetryText]
        else [DrawBackground; DrawPlayer (Player.getPosition (player g))]
               ++ map (fun p => DrawPlatform (Platform.getPosition p)) (platforms g)
               ++ [DrawScoreText (scoreText g)])
    ++ [WindowDisplay].

(** Whether the loop of [pollEvents], entered with the window open and
    the game over, calls [resetGame]: an event is handled with R held
    before the window is closed. *)
Fixpoint retry_pressed (evs : list Event) : bool :=
  match evs with
  | [] => false
  | e :: rest =>
      ev_key_R e
      || (negb (ev_closed e) && negb (ev_key_Escape e) && retry_pressed rest)
  end.

(** Whether [update_platform] sends a platform back to the top, for a
    player of velocity [vel]. *)
Definition recycles (vel : F32.float) (p : Platform.t) : bool :=
  F32.gtb (Vector2f.y (Platform.getPosition (Platform.move p vel))) (F32.of_int 700).

(** Whether some platform of [ps] overlaps the box of the player. *)
Definition some_overlap (pl : Player.t) (ps : list Platform.t) : bool :=
  existsb (fun p => boxes_overlap (Player.getPosition pl) (Platform.getPosition p)) ps.

(** The number of times the bounce sound is played in a log. *)
Definition bounces (l : list effect) : nat :=
  List.length (filter (fun e => match e with SoundPlay => true | _ => false end) l).

(** The platform [i] that [resetGame] builds when [c] calls of
    [rand()] have been made before. *)
Definition fresh_platform (c : nat) (i : nat) : Platform.t :=
  let a := Z.of_N (rand_seq (c + 2 * i)) in
  let b := Z.of_N (rand_seq (c + 2 * i + 1)) in
  let '(rx, ry) := if args_left_to_right then (a, b) else (b, a) in
  Platform.new (F32.of_int (Z.rem rx 500)) (F32.of_int (Z.rem ry 700)).

(** A step that neither reads nor writes the window. *)
Definition window_blind (f : Game -> Game) : Prop :=
  forall b g, f (set_window_isOpen b g) = set_window_isOpen b (f g).

(** The game with [l] appended to its log. *)
Definition add_effects (l : list effect) (g : Game) : Game :=
  mkGame (window_isOpen g) (player g) (platforms g) (score g) (gameOver g)
         (scoreText g) (rand_calls g) (effects g ++ l).

(** The platforms of [ps] that [updatePlatforms] sends back to the
    top when the player has velocity [vel]. *)
Definition recycled (vel : F32.float) (ps : list Platform.t) : nat :=
  List.length (filter (recycles vel) ps).

(** What [updatePlatforms] makes of one platform. *)
Definition updated (vel : F32.float) (p p' : Platform.t) : Prop :=
  if recycles vel p
  then exists k : nat,
      p' = Platform.new (F32.of_int (Z.rem (Z.of_N (rand_seq k)) 500)) (F32.of_int 0)
  else p' = Platform.move p vel.

(** *** The sentences of the specification that the code does not follow *)

(** [VideoMode(500, 700)] *)
Definition window_width : Z := 500.
Definition window_height : Z := 700.

(** The width of a platform, as [handleCollisions] takes it
    ([pPos.x + 68]). *)
Definition platform_width : Z := 68.

(** "translate every platform upward by offset": the scroll lowers
    the [y] of every platform by [300 - player.y]. *)
Definition scroll_moves_platforms_up (g : Game) : Prop :=
  let py := Vector2f.y (Player.getPosition (player g)) in
  let offset := F32.sub (F32.of_int 300) py in
  F32.ltb py (F32.of_int 300) = true ->
  map (fun p => Vector2f.y (Platform.getPosition p)) (platforms (scrollUp g)) =
  map (fun p => F32.sub (Vector2f.y (Platform.getPosition p)) offset) (platforms g).

(** "random x in [0, window_width - platform_width]", for the platform
    that [update_platform] sends back to the top. *)
Definition recycled_inside_window (p : Platform.t) (g : Game) : Prop :=
  recycles (Player.dy (player g)) p = true ->
  let x' := Vector2f.x (Platform.getPosition (fst (update_platform p g))) in
  F32.leb (F32.of_int 0) x' = true
  /\ F32.leb x' (F32.of_int (window_width - platform_width)) = true.

(** "multiple simultaneous platform hits in one frame are all
    processed": when the player enters the pass moving downward, the
    bounce is played once for every platform that overlaps its box. *)
Definition all_overlaps_hit (g : Game) : Prop :=
  F32.gtb (Player.dy (player g)) (F32.of_int 0) = true ->
  bounces (effects (handleCollisions g)) =
  (bounces (effects g)
   + List.length
       (filter (fun p => boxes_overlap (Player.getPosition (player g))
                                       (Platform.getPosition p))
               (platforms g)))%nat.

(** *** Games used as examples *)

(** No event, no key held. *)
Definition idle : FrameInput := mkInput [] false false.

(** One event, handled while R is held. *)
Definition retry : FrameInput := mkInput [mkEvent false true false] false false.

Definition player_at (x y : Z) (vel : F32.float) : Player.t :=
  Player.mk (Vector2f.mk (F32.of_int x) (F32.of_int y)) (F32.of_int 0) vel.

Definition platform_at (x y : Z) : Platform.t :=
  Platform.new (F32.of_int x) (F32.of_int y).

Definition game_with (pl : Player.t) (ps : list Platform.t) (over : bool) : Game :=
  mkGame true pl ps 0 over "Score: 0" 0 [].

(** A player at y = 250 when the scroll-up check is made, a platform
    at y = 400. *)
Definition game_scroll : Game :=
  game_with (player_at 200 250 (F32.of_int 0)) [platform_at 100 400] false.

(** A player at the spawn point and a player lower than the threshold,
    at rest, with a platform at y = 400. *)
Definition game_high : Game :=
  game_with (player_at 200 200 (F32.of_int 0)) [platform_at 100 400] false.
Definition game_low : Game :=
  game_with (player_at 200 400 (F32.of_int 0)) [platform_at 100 400] false.

(** A platform below the bottom of the window. *)
Definition game_recycle : Game :=
  game_with (player_at 200 400 (F32.of_int 0)) [platform_at 100 705] false.

(** Two platforms under the feet of a player that falls at 3 per frame. *)
Definition game_two_hits : Game :=
  game_with (player_at 200 300 (F32.of_int 3))
            [platform_at 200 365; platform_at 210 366] false.

(** A player that leaves the window in the next frame, with a platform
    that leaves it too. *)
Definition game_falling : Game :=
  game_with (player_at 200 699 (F32.of_int 5)) [platform_at 100 706] false.

(** A game that is over. *)
Definition game_lost : Game :=
  game_with (player_at 200 720 (F32.of_int 9)) [platform_at 100 400] true.

(** [rand()] returning 499 at every call. *)
Definition rand_499 : nat -> N := fun _ => 499%N.

(** *** The program and what its frames keep *)

(** [int main() { Game game; game.run(); return 0; }], on the inputs of
    the first iterations of the loop. *)
Definition main (font_ok sound_ok : bool) (inputs : list FrameInput) : Game :=
  run inputs (Game_new font_ok sound_ok).

(** The text that [updateScoreText] writes for a score. *)
Definition score_text (n : Z) : string :=
  "Score: " ++ NilZero.string_of_int (Z.to_int n).

(** The text of the score is the one of the current score. *)
Definition text_synced (g : Game) : Prop := scoreText g = score_text (score g).

(** The game with the player put at the abscissa [x]. *)
Definition move_x (x : F32.float) (g : Game) : Game :=
  set_player
    (Player.mk (Vector2f.mk x (Vector2f.y (Player.position (player g))))
               (Player.dx (player g)) (Player.dy (player g)))
    g.

(** The abscissa of a platform is an integer of [0 .. 499]. *)
Definition x_in_window (p : Platform.t) : Prop :=
  exists r : Z, 0 <= r <= 499 /\ Vector2f.x (Platform.getPosition p) = F32.of_int r.

(** The same binary32 datum. *)
Definition same_float (a b : F32.float) : bool :=
  match a, b with
  | S754_zero s, S754_zero s' => Bool.eqb s s'
  | S754_infinity s, S754_infinity s' => Bool.eqb s s'
  | S754_nan, S754_nan => true
  | S754_finite s m e, S754_finite s' m' e' =>
      Bool.eqb s s' && Pos.eqb m m' && Z.eqb e e'
  | _, _ => false
  end.

(** A frame in which no event is handled with R held. *)
Definition no_retry (inp : FrameInput) : Prop :=
  forallb (fun e => negb (ev_key_R e)) (events inp) = true.

(** *** The velocities of a game *)









(** ** Facts about binary32 *)

Lemma F32_sub_neg (a b : F32.float) : F32.sub a (F32.neg b) = F32.add a b.
Proof.
  destruct a as [sa|sa| |sa ma ea], b as [sb|sb| |sb mb eb];
    try reflexivity; try (destruct sa, sb; reflexivity);
    destruct sb; reflexivity.
Qed.

Lemma SFcompare_antisym (a b : spec_float) :
  SFcompare b a = option_map CompOpp (SFcompare a b).
Proof.
  destruct a as [sa|sa| |sa ma ea], b as [sb|sb| |sb mb eb];
    try reflexivity; try (destruct sa, sb; reflexivity);
    try (destruct sa; reflexivity); try (destruct sb; reflexivity).
  destruct sa, sb; simpl; try reflexivity;
    rewrite (Z.compare_antisym eb ea);
    destruct (Z.compare eb ea); simpl; try reflexivity;
    pose proof (Pos.compare_cont_antisym ma mb Eq) as H; simpl in H;
    rewrite <- H; destruct (Pos.compare_cont Eq ma mb); reflexivity.
Qed.

Lemma F32_ltb_gtb_false (a b : F32.float) :
  F32.ltb a b = true -> F32.gtb a b = false.
Proof.
  unfold F32.ltb, F32.gtb, SFltb. rewrite (SFcompare_antisym a b).
  destruct (SFcompare a b) as [[ | | ]|]; simpl; congruence.
Qed.

Lemma F32_leb_ltb_false (a b : F32.float) :
  F32.leb a b = true -> F32.ltb b a = false.
Proof.
  unfold F32.leb, F32.ltb, SFleb, SFltb. rewrite (SFcompare_antisym a b).
  destruct (SFcompare a b) as [[ | | ]|]; simpl; congruence.
Qed.

(** A value above 700 is not below 300. *)
Lemma F32_gtb_700_ltb_300 (a : F32.float) :
  F32.gtb a (F32.of_int 700) = true -> F32.ltb a (F32.of_int 300) = false.
Proof.
  unfold F32.gtb, F32.ltb, SFltb.
  replace (F32.of_int 700) with (S754_finite false 11468800 (-14))
    by (vm_compute; reflexivity).
  replace (F32.of_int 300) with (S754_finite false 9830400 (-15))
    by (vm_compute; reflexivity).
  destruct a as [s|s| |s m e]; unfold SFcompare; try congruence.
  - destruct s; congruence.
  - destruct s; try congruence.
    destruct (Z.compare_spec (-14) e), (Z.compare_spec e (-15));
      try congruence; lia.
Qed.

(** After a jump the player does not move downward. *)
Lemma F32_jump_not_downward :
  F32.gtb (F32.neg (F32.of_int 8)) (F32.of_int 0) = false.
Proof. vm_compute. reflexivity. Qed.

(** [0.2f] is the correctly rounded quotient 1/5, and no neighbour of
    it in binary32 is nearer to 1/5. *)
Lemma F32_lit_0_2_nearest :
  F32.div (F32.of_int 1) (F32.of_int 5) = F32.lit_0_2
  /\ F32.valid F32.lit_0_2 = true
  /\ Z.abs (5 * 13421773 - 2 ^ 26) < Z.abs (5 * 13421772 - 2 ^ 26)
  /\ Z.abs (5 * 13421773 - 2 ^ 26) < Z.abs (5 * 13421774 - 2 ^ 26).
Proof. split; [|split; [|split]]; vm_compute; reflexivity. Qed.

Lemma wrap_int_id (z : Z) : - 2 ^ 31 <= z <= INT_MAX -> wrap_int z = z.
Proof.
  unfold wrap_int, INT_MAX. intros H.
  rewrite Z.mod_small; lia.
Qed.

(** *** The rounding of a sum *)













(** ** The steps of a frame *)

Local Arguments F32.add : simpl never.
Local Arguments F32.sub : simpl never.
Local Arguments F32.neg : simpl never.
Local Arguments F32.ltb : simpl never.
Local Arguments F32.gtb : simpl never.
Local Arguments F32.leb : simpl never.
Local Arguments F32.of_int : simpl never.
Local Arguments Z.rem : simpl never.
Local Arguments wrap_int : simpl never.
Local Arguments incr_score : simpl never.
Local Arguments NilZero.string_of_int : simpl never.
Local Arguments Z.to_int : simpl never.
Local Arguments String.append : simpl never.

Ltac split_ifs :=
  repeat match goal with
         | |- context [if ?c then _ else _] => destruct c eqn:?
         end.

Lemma frame_steps (inp : FrameInput) (g : Game) :
  frame inp g =
  draw (if negb (gameOver (pollEvents (events inp) g))
        then physics inp (pollEvents (events inp) g)
        else pollEvents (events inp) g).
Proof. reflexivity. Qed.

Lemma update_platform_eq (p : Platform.t) (g : Game) :
  update_platform p g =
  if recycles (Player.dy (player g)) p
  then (Platform.new (F32.of_int (Z.rem (Z.of_N (rand_seq (rand_calls g))) 500))
                     (F32.of_int 0),
        set_score (incr_score (score g)) (set_rand_calls (S (rand_calls g)) g))
  else (Platform.move p (Player.dy (player g)), g).
Proof.
  unfold update_platform, recycles, Player.getVelocityY.
  destruct (F32.gtb _ _); reflexivity.
Qed.

Lemma update_each_cons (p : Platform.t) (rest : list Platform.t) (g : Game) :
  update_each (p :: rest) g =
  (fst (update_platform p g) :: fst (update_each rest (snd (update_platform p g))),
   snd (update_each rest (snd (update_platform p g)))).
Proof.
  simpl. destruct (update_platform p g) as [p' g']. simpl.
  destruct (update_each rest g'). reflexivity.
Qed.

Lemma updatePlatforms_eq (g : Game) :
  updatePlatforms g =
  updateScoreText
    (set_platforms (fst (update_each (platforms g) g))
                   (snd (update_each (platforms g) g))).
Proof.
  unfold updatePlatforms. destruct (update_each (platforms g) g). reflexivity.
Qed.

Lemma blind_handleInput inp : window_blind (handleInput inp).
Proof.
  intros b g. unfold handleInput. destruct (key_Left inp), (key_Right inp); reflexivity.
Qed.

Lemma blind_playerUpdate : window_blind playerUpdate.
Proof. intros b g. reflexivity. Qed.

Lemma blind_fallOutCheck : window_blind fallOutCheck.
Proof. intros b g. unfold fallOutCheck. simpl. split_ifs; reflexivity. Qed.

Lemma blind_scrollUp : window_blind scrollUp.
Proof. intros b g. unfold scrollUp. simpl. split_ifs; reflexivity. Qed.

Lemma update_each_window b ps g :
  update_each ps (set_window_isOpen b g) =
  (fst (update_each ps g), set_window_isOpen b (snd (update_each ps g))).
Proof.
  revert g. induction ps as [|p rest IH]; intros g.
  - reflexivity.
  - rewrite !update_each_cons, !update_platform_eq.
    change (player (set_window_isOpen b g)) with (player g).
    destruct (recycles (Player.dy (player g)) p); cbn [fst snd].
    + change (set_score (incr_score (score (set_window_isOpen b g)))
                (set_rand_calls (S (rand_calls (set_window_isOpen b g)))
                   (set_window_isOpen b g)))
        with (set_window_isOpen b
                (set_score (incr_score (score g))
                   (set_rand_calls (S (rand_calls g)) g))).
      rewrite IH. reflexivity.
    + rewrite IH. reflexivity.
Qed.

Lemma blind_updatePlatforms : window_blind updatePlatforms.
Proof.
  intros b g. rewrite !updatePlatforms_eq. simpl platforms.
  rewrite update_each_window. reflexivity.
Qed.

Lemma blind_fold_collide ps : window_blind (fold_left collide ps).
Proof.
  induction ps as [|p rest IH]; intros b g.
  - reflexivity.
  - simpl. rewrite <- IH. f_equal.
    unfold collide. simpl. split_ifs; reflexivity.
Qed.

Lemma blind_handleCollisions : window_blind handleCollisions.
Proof. intros b g. unfold handleCollisions. simpl. apply blind_fold_collide. Qed.

Lemma blind_physics inp : window_blind (physics inp).
Proof.
  intros b g. unfold physics.
  rewrite blind_handleInput, blind_playerUpdate, blind_fallOutCheck,
    blind_scrollUp, blind_updatePlatforms, blind_handleCollisions.
  reflexivity.
Qed.

Lemma emplace_platforms_window n : window_blind (emplace_platforms n).
Proof.
  induction n as [|k IH]; intros b g.
  - reflexivity.
  - simpl. destruct args_left_to_right; simpl; rewrite <- IH; reflexivity.
Qed.

Lemma blind_resetGame : window_blind resetGame.
Proof.
  intros b g. unfold resetGame.
  change (set_platforms [] (set_gameOver false (set_score 0
            (set_player (Player.reset (player (set_window_isOpen b g)))
               (set_window_isOpen b g)))))
    with (set_window_isOpen b (set_platforms [] (set_gameOver false (set_score 0
            (set_player (Player.reset (player g)) g))))).
  rewrite emplace_platforms_window. reflexivity.
Qed.

(** ** The window, the log and [resetGame] *)

Lemma set_window_same g : set_window_isOpen (window_isOpen g) g = g.
Proof. destruct g; reflexivity. Qed.

Lemma set_window_twice b b' g :
  set_window_isOpen b (set_window_isOpen b' g) = set_window_isOpen b g.
Proof. reflexivity. Qed.

Lemma fold_emit_platforms ps g :
  fold_left (fun g p => emit (DrawPlatform (Platform.getPosition p)) g) ps g =
  add_effects (map (fun p => DrawPlatform (Platform.getPosition p)) ps) g.
Proof.
  revert g. induction ps as [|p rest IH]; intros g.
  - unfold add_effects. simpl. rewrite app_nil_r. destruct g; reflexivity.
  - simpl. rewrite IH. unfold add_effects, emit. simpl.
    rewrite <- app_assoc. reflexivity.
Qed.

Lemma draw_eq g : draw g = add_effects (presentation g) g.
Proof.
  unfold draw, presentation.
  change (gameOver (emit WindowClear g)) with (gameOver g).
  destruct (gameOver g).
  - unfold add_effects, emit. simpl. rewrite <- !app_assoc. reflexivity.
  - rewrite fold_emit_platforms. unfold add_effects, emit. simpl.
    rewrite <- !app_assoc. reflexivity.
Qed.

Lemma emplace_platforms_eq n g :
  emplace_platforms n g =
  set_rand_calls (rand_calls g + 2 * n)
    (set_platforms
       (platforms g ++ map (fresh_platform (rand_calls g)) (seq 0 n)) g).
Proof.
  revert g. induction n as [|k IH]; intros g.
  - simpl. rewrite app_nil_r, Nat.add_0_r. destruct g; reflexivity.
  - cbn [emplace_platforms rand]. 
    assert (Hstep :
      (let '(rx, ry) :=
         if args_left_to_right
         then (Z.of_N (rand_seq (rand_calls g)),
               Z.of_N (rand_seq (rand_calls (set_rand_calls (S (rand_calls g)) g))))
         else (Z.of_N (rand_seq (rand_calls (set_rand_calls (S (rand_calls g)) g))),
               Z.of_N (rand_seq (rand_calls g))) in
       Platform.new (F32.of_int (Z.rem rx 500)) (F32.of_int (Z.rem ry 700)))
      = fresh_platform (rand_calls g) 0).
    { unfold fresh_platform. simpl rand_calls.
      replace (rand_calls g + 2 * 0)%nat with (rand_calls g) by lia.
      replace (rand_calls g + 1)%nat with (S (rand_calls g)) by lia.
      reflexivity. }
    destruct args_left_to_right; rewrite IH; simpl rand_calls; simpl platforms;
      unfold set_rand_calls, set_platforms; simpl;
      rewrite <- app_assoc; simpl;
      rewrite <- seq_shift, map_map;
      (f_equal; [ f_equal; f_equal;
                  [ exact Hstep
                  | apply map_ext; intros i; unfold fresh_platform;
                    replace (S (S (rand_calls g)) + 2 * i)%nat
                      with (rand_calls g + 2 * S i)%nat by lia;
                    reflexivity ]
                | lia ]).
Qed.

Lemma resetGame_eq g :
  resetGame g =
  mkGame (window_isOpen g)
         (Player.mk (Vector2f.mk (F32.of_int 200) (F32.of_int 200))
                    (F32.of_int 0) (F32.of_int 0))
         (map (fresh_platform (rand_calls g)) (seq 0 10))
         0 false "Score: 0" (rand_calls g + 20) (effects g).
Proof.
  unfold resetGame. rewrite emplace_platforms_eq. reflexivity.
Qed.

Lemma pollEvents_playing evs g :
  gameOver g = false -> exists b, pollEvents evs g = set_window_isOpen b g.
Proof.
  revert g. induction evs as [|e rest IH]; intros g H.
  - exists (window_isOpen g). symmetry. apply set_window_same.
  - simpl. destruct (window_isOpen g) eqn:W.
    + destruct (ev_closed e).
      * change (gameOver (set_window_isOpen false g)) with (gameOver g).
        rewrite H.
        destruct (IH (set_window_isOpen false g) H) as [b Hb].
        exists b. rewrite Hb. reflexivity.
      * rewrite H. apply IH, H.
    + exists false. rewrite <- W. symmetry. apply set_window_same.
Qed.

Lemma pollEvents_over evs g :
  gameOver g = true ->
  exists b,
    pollEvents evs g =
    set_window_isOpen b
      (if window_isOpen g && retry_pressed evs then resetGame g else g).
Proof.
  revert g. induction evs as [|e rest IH]; intros g H.
  - exists (window_isOpen g). simpl. rewrite andb_false_r.
    symmetry. apply set_window_same.
  - cbn [pollEvents retry_pressed]. destruct (window_isOpen g) eqn:W.
    + cbn [andb].
      assert (Hreset : forall b0,
                 exists b, pollEvents rest (resetGame (set_window_isOpen b0 g))
                           = set_window_isOpen b (resetGame g)).
      { intros b0.
        destruct (pollEvents_playing rest (resetGame (set_window_isOpen b0 g)))
          as [b Hb].
        - rewrite resetGame_eq. reflexivity.
        - exists b. rewrite Hb, blind_resetGame. reflexivity. }
      assert (Hclosed : exists b, pollEvents rest (set_window_isOpen false g)
                                  = set_window_isOpen b g).
      { destruct (IH (set_window_isOpen false g) H) as [b Hb].
        exists b. rewrite Hb. reflexivity. }
      destruct (ev_closed e), (ev_key_R e), (ev_key_Escape e);
        cbn [negb andb orb];
        change (gameOver (set_window_isOpen false g)) with (gameOver g);
        rewrite H;
        try apply (Hreset false); try exact Hclosed.
      * destruct (Hreset true) as [b Hb]. exists b. rewrite <- Hb, <- W.
        rewrite set_window_same. reflexivity.
      * destruct (Hreset true) as [b Hb]. exists b. rewrite <- Hb, <- W.
        rewrite set_window_same. reflexivity.
      * destruct (IH g H) as [b Hb]. exists b. rewrite Hb, W. reflexivity.
    + exists false. cbn [andb]. rewrite <- W. symmetry. apply set_window_same.
Qed.

(** ** [updatePlatforms] and [handleCollisions] *)

Lemma update_each_game ps g :
  snd (update_each ps g) =
  set_score (Nat.iter (recycled (Player.dy (player g)) ps) incr_score (score g))
    (set_rand_calls (rand_calls g + recycled (Player.dy (player g)) ps) g).
Proof.
  revert g. induction ps as [|p rest IH]; intros g.
  - unfold recycled. simpl. rewrite Nat.add_0_r. destruct g; reflexivity.
  - rewrite update_each_cons, update_platform_eq. cbn [snd].
    unfold recycled. cbn [filter].
    destruct (recycles (Player.dy (player g)) p); cbn [snd].
    + rewrite IH. cbn [List.length]. rewrite Nat.iter_succ_r.
      unfold recycled. simpl.
      rewrite Nat.add_succ_r. reflexivity.
    + apply IH.
Qed.

Lemma update_each_length ps g :
  List.length (fst (update_each ps g)) = List.length ps.
Proof.
  revert g. induction ps as [|p rest IH]; intros g.
  - reflexivity.
  - rewrite update_each_cons. cbn [fst List.length]. rewrite IH. reflexivity.
Qed.

Lemma update_each_platforms ps g :
  Forall2 (updated (Player.dy (player g))) ps (fst (update_each ps g)).
Proof.
  revert g. induction ps as [|p rest IH]; intros g.
  - constructor.
  - rewrite update_each_cons. cbn [fst]. constructor.
    + rewrite update_platform_eq. unfold updated.
      destruct (recycles (Player.dy (player g)) p); cbn [fst].
      * exists (rand_calls g). reflexivity.
      * reflexivity.
    + replace (Player.dy (player g))
        with (Player.dy (player (snd (update_platform p g)))).
      * apply IH.
      * rewrite update_platform_eq.
        destruct (recycles (Player.dy (player g)) p); reflexivity.
Qed.

Lemma updatePlatforms_spec g :
  let n := recycled (Player.dy (player g)) (platforms g) in
  updatePlatforms g =
  mkGame (window_isOpen g) (player g) (fst (update_each (platforms g) g))
         (Nat.iter n incr_score (score g)) (gameOver g)
         ("Score: " ++ NilZero.string_of_int
                         (Z.to_int (Nat.iter n incr_score (score g))))
         (rand_calls g + n) (effects g).
Proof.
  intros n. rewrite updatePlatforms_eq, update_each_game. reflexivity.
Qed.

Lemma iter_incr_score n s :
  0 <= s -> s + Z.of_nat n <= INT_MAX ->
  Nat.iter n incr_score s = s + Z.of_nat n.
Proof.
  intros H0. induction n as [|k IH]; intros H.
  - simpl. lia.
  - rewrite Nat.iter_succ, IH by lia.
    unfold incr_score. rewrite wrap_int_id; unfold INT_MAX in *; lia.
Qed.

Lemma recycled_le vel ps : (recycled vel ps <= List.length ps)%nat.
Proof. apply filter_length_le. Qed.

Lemma fold_collide_spec ps g :
  fold_left collide ps g =
  if some_overlap (player g) ps
     && F32.gtb (Player.dy (player g)) (F32.of_int 0)
  then emit SoundPlay (set_player (Player.jump (player g)) g)
  else g.
Proof.
  revert g. induction ps as [|p rest IH]; intros g.
  - reflexivity.
  - cbn [fold_left some_overlap existsb]. rewrite IH. unfold collide.
    unfold Player.getVelocityY.
    fold (some_overlap (player g) rest).
    destruct (boxes_overlap (Player.getPosition (player g))
                            (Platform.getPosition p)) eqn:Hov;
      destruct (F32.gtb (Player.dy (player g)) (F32.of_int 0)) eqn:Hv;
      cbn [andb orb].
    + change (Player.dy (player (emit SoundPlay
                (set_player (Player.jump (player g)) g))))
        with (F32.neg (F32.of_int 8)).
      rewrite F32_jump_not_downward, andb_false_r. reflexivity.
    + rewrite Hv, andb_false_r. reflexivity.
    + rewrite Hv. reflexivity.
    + rewrite Hv. reflexivity.
Qed.

Lemma handleCollisions_spec g :
  handleCollisions g =
  if some_overlap (player g) (platforms g)
     && F32.gtb (Player.dy (player g)) (F32.of_int 0)
  then emit SoundPlay (set_player (Player.jump (player g)) g)
  else g.
Proof. apply fold_collide_spec. Qed.

Lemma blind_draw : window_blind draw.
Proof. intros b g. rewrite !draw_eq. reflexivity. Qed.

Lemma frame_playing inp g :
  gameOver g = false ->
  exists b, frame inp g = set_window_isOpen b (draw (physics inp g)).
Proof.
  intros H. rewrite frame_steps.
  destruct (pollEvents_playing (events inp) g H) as [b Hb]. rewrite Hb.
  change (gameOver (set_window_isOpen b g)) with (gameOver g).
  rewrite H. cbn [negb]. exists b.
  rewrite blind_physics, blind_draw. reflexivity.
Qed.

Lemma frame_over inp g :
  gameOver g = true ->
  exists b,
    frame inp g =
    set_window_isOpen b
      (if window_isOpen g && retry_pressed (events inp)
       then draw (physics inp (resetGame g)) else draw g).
Proof.
  intros H. rewrite frame_steps.
  destruct (pollEvents_over (events inp) g H) as [b Hb]. rewrite Hb.
  exists b.
  destruct (window_isOpen g && retry_pressed (events inp)).
  - change (gameOver (set_window_isOpen b (resetGame g)))
      with (gameOver (resetGame g)).
    rewrite resetGame_eq at 1. cbn [gameOver negb].
    rewrite blind_physics, blind_draw. reflexivity.
  - change (gameOver (set_window_isOpen b g)) with (gameOver g).
    rewrite H. cbn [negb]. rewrite blind_draw. reflexivity.
Qed.

(** ** What each step leaves alone *)

Ltac by_cases_of step :=
  intros; unfold step; split_ifs; reflexivity.

Lemma handleInput_effects inp g : effects (handleInput inp g) = effects g.
Proof. by_cases_of handleInput. Qed.
Lemma handleInput_score inp g : score (handleInput inp g) = score g.
Proof. by_cases_of handleInput. Qed.
Lemma handleInput_gameOver inp g : gameOver (handleInput inp g) = gameOver g.
Proof. by_cases_of handleInput. Qed.
Lemma handleInput_platforms inp g : platforms (handleInput inp g) = platforms g.
Proof. by_cases_of handleInput. Qed.
Lemma handleInput_rand_calls inp g : rand_calls (handleInput inp g) = rand_calls g.
Proof. by_cases_of handleInput. Qed.
Lemma handleInput_dy inp g :
  Player.dy (player (handleInput inp g)) = Player.dy (player g).
Proof. by_cases_of handleInput. Qed.
Lemma handleInput_y inp g :
  Vector2f.y (Player.position (player (handleInput inp g))) =
  Vector2f.y (Player.position (player g)).
Proof. by_cases_of handleInput. Qed.

Lemma fallOutCheck_effects g : effects (fallOutCheck g) = effects g.
Proof. by_cases_of fallOutCheck. Qed.
Lemma fallOutCheck_score g : score (fallOutCheck g) = score g.
Proof. by_cases_of fallOutCheck. Qed.
Lemma fallOutCheck_platforms g : platforms (fallOutCheck g) = platforms g.
Proof. by_cases_of fallOutCheck. Qed.
Lemma fallOutCheck_player g : player (fallOutCheck g) = player g.
Proof. by_cases_of fallOutCheck. Qed.
Lemma fallOutCheck_rand_calls g : rand_calls (fallOutCheck g) = rand_calls g.
Proof. by_cases_of fallOutCheck. Qed.
Lemma fallOutCheck_gameOver g :
  gameOver (fallOutCheck g) =
  F32.gtb (Vector2f.y (Player.getPosition (player g))) (F32.of_int 700)
  || gameOver g.
Proof. by_cases_of fallOutCheck. Qed.

Lemma scrollUp_effects g : effects (scrollUp g) = effects g.
Proof. by_cases_of scrollUp. Qed.
Lemma scrollUp_score g : score (scrollUp g) = score g.
Proof. by_cases_of scrollUp. Qed.
Lemma scrollUp_gameOver g : gameOver (scrollUp g) = gameOver g.
Proof. by_cases_of scrollUp. Qed.
Lemma scrollUp_rand_calls g : rand_calls (scrollUp g) = rand_calls g.
Proof. by_cases_of scrollUp. Qed.
Lemma scrollUp_length g :
  List.length (platforms (scrollUp g)) = List.length (platforms g).
Proof.
  unfold scrollUp. split_ifs; [|reflexivity].
  cbn [platforms set_platforms set_player]. apply length_map.
Qed.

Lemma updatePlatforms_effects g : effects (updatePlatforms g) = effects g.
Proof. rewrite updatePlatforms_spec. reflexivity. Qed.
Lemma updatePlatforms_gameOver g : gameOver (updatePlatforms g) = gameOver g.
Proof. rewrite updatePlatforms_spec. reflexivity. Qed.
Lemma updatePlatforms_player g : player (updatePlatforms g) = player g.
Proof. rewrite updatePlatforms_spec. reflexivity. Qed.
Lemma updatePlatforms_score g :
  score (updatePlatforms g) =
  Nat.iter (recycled (Player.dy (player g)) (platforms g)) incr_score (score g).
Proof. rewrite updatePlatforms_spec. reflexivity. Qed.
Lemma updatePlatforms_length g :
  List.length (platforms (updatePlatforms g)) = List.length (platforms g).
Proof. rewrite updatePlatforms_spec. cbn [platforms]. apply update_each_length. Qed.

Lemma handleCollisions_score g : score (handleCollisions g) = score g.
Proof. rewrite handleCollisions_spec. split_ifs; reflexivity. Qed.
Lemma handleCollisions_gameOver g : gameOver (handleCollisions g) = gameOver g.
Proof. rewrite handleCollisions_spec. split_ifs; reflexivity. Qed.
Lemma handleCollisions_platforms g : platforms (handleCollisions g) = platforms g.
Proof. rewrite handleCollisions_spec. split_ifs; reflexivity. Qed.

Lemma effects_before_collisions inp g :
  effects (updatePlatforms (scrollUp (fallOutCheck (playerUpdate (handleInput inp g)))))
  = effects g.
Proof.
  rewrite updatePlatforms_effects, scrollUp_effects, fallOutCheck_effects.
  unfold playerUpdate. cbn [effects set_player]. apply handleInput_effects.
Qed.

Lemma core_set_window b g : core (set_window_isOpen b g) = core g.
Proof. reflexivity. Qed.

Lemma core_draw g : core (draw g) = core g.
Proof. rewrite draw_eq. reflexivity. Qed.

Lemma frame_playing_core inp g :
  gameOver g = false -> core (frame inp g) = core (physics inp g).
Proof.
  intros H. destruct (frame_playing inp g H) as [b Hb].
  rewrite Hb, core_set_window. apply core_draw.
Qed.

Lemma frame_playing_effects inp g :
  gameOver g = false ->
  effects (frame inp g) = effects (physics inp g) ++ presentation (physics inp g).
Proof.
  intros H. destruct (frame_playing inp g H) as [b Hb].
  rewrite Hb, draw_eq. reflexivity.
Qed.

Lemma core_score g g' : core g = core g' -> score g = score g'.
Proof. unfold core. congruence. Qed.
Lemma core_gameOver g g' : core g = core g' -> gameOver g = gameOver g'.
Proof. unfold core. congruence. Qed.
Lemma core_player g g' : core g = core g' -> player g = player g'.
Proof. unfold core. congruence. Qed.
Lemma core_platforms g g' : core g = core g' -> platforms g = platforms g'.
Proof. unfold core. congruence. Qed.

(** ** The claims *)

(** C1: in a frame that starts with the game not over, the state of
    the simulation at the end is the one obtained by running, in this
    order, the input handling, the physics update of the player, the
    fall-out check, the scroll-up check, the update of the platforms
    and the collision pass; nothing is presented before the collision
    pass, which plays at most one sound, and the frame ends with the
    presentation of the state the collision pass leaves. *)
Theorem C1_frame_order (inp : FrameInput) (g : Game) :
  gameOver g = false ->
  let g1 := handleInput inp g in
  let g2 := playerUpdate g1 in
  let g3 := fallOutCheck g2 in
  let g4 := scrollUp g3 in
  let g5 := updatePlatforms g4 in
  let g6 := handleCollisions g5 in
  core (frame inp g) = core g6
  /\ effects g5 = effects g
  /\ (effects g6 = effects g \/ effects g6 = effects g ++ [SoundPlay])
  /\ effects (frame inp g) = effects g6 ++ presentation g6.
Proof.
  intros H g1 g2 g3 g4 g5 g6.
  assert (H5 : effects g5 = effects g) by apply effects_before_collisions.
  split; [apply (frame_playing_core inp g H)|].
  split; [exact H5|].
  split; [|apply (frame_playing_effects inp g H)].
  unfold g6. rewrite handleCollisions_spec.
  destruct (_ && _); [right|left].
  - cbn [effects emit set_player]. rewrite H5. reflexivity.
  - exact H5.
Qed.

(** C2, as the code has it:
    in a frame that starts with the game not over, the
    scroll rule is applied to the state left by the physics update and
    the fall-out check.  When the [y] of the player is below 300 there,
    the rule sets it to 300, leaves [x] and the velocities as they are,
    and raises the [y] of every platform by [300 - y] (the platforms go
    down the screen), keeping their [x] and their number; when
    [y >= 300] the rule changes nothing. *)
Theorem C2_scroll_shift (inp : FrameInput) (g : Game) :
  gameOver g = false ->
  let g3 := fallOutCheck (playerUpdate (handleInput inp g)) in
  let py := Vector2f.y (Player.getPosition (player g3)) in
  let offset := F32.sub (F32.of_int 300) py in
  core (frame inp g) = core (handleCollisions (updatePlatforms (scrollUp g3)))
  /\ (F32.ltb py (F32.of_int 300) = true ->
      player (scrollUp g3) =
        Player.mk (Vector2f.mk (Vector2f.x (Player.getPosition (player g3)))
                               (F32.of_int 300))
                  (Player.dx (player g3)) (Player.dy (player g3))
      /\ platforms (scrollUp g3) =
           map (fun p =>
                  Platform.mk
                    (Vector2f.mk (Vector2f.x (Platform.getPosition p))
                                 (F32.add (Vector2f.y (Platform.getPosition p)) offset)))
               (platforms g)
      /\ List.length (platforms (scrollUp g3)) = List.length (platforms g))
  /\ (F32.leb (F32.of_int 300) py = true -> scrollUp g3 = g3).
Proof.
  intros H g3 py offset.
  assert (Hps : platforms g3 = platforms g).
  { unfold g3. rewrite fallOutCheck_platforms. unfold playerUpdate.
    cbn [platforms set_player]. apply handleInput_platforms. }
  split; [apply (frame_playing_core inp g H)|].
  split.
  - intros Hlt. unfold scrollUp. fold py. rewrite Hlt. fold offset.
    cbn [player platforms set_player set_platforms].
    split; [reflexivity|]. rewrite Hps. split.
    + apply map_ext. intros p. unfold Platform.move.
      rewrite F32_sub_neg. reflexivity.
    + apply length_map.
  - intros Hge. unfold scrollUp. fold py.
    rewrite (F32_leb_ltb_false _ _ Hge). reflexivity.
Qed.

Lemma score_before_platforms inp g :
  score (scrollUp (fallOutCheck (playerUpdate (handleInput inp g)))) = score g.
Proof.
  rewrite scrollUp_score, fallOutCheck_score. unfold playerUpdate.
  cbn [score set_player]. apply handleInput_score.
Qed.

Lemma length_before_platforms inp g :
  List.length (platforms (scrollUp (fallOutCheck (playerUpdate (handleInput inp g)))))
  = List.length (platforms g).
Proof.
  rewrite scrollUp_length, fallOutCheck_platforms. unfold playerUpdate.
  cbn [platforms set_player]. rewrite handleInput_platforms. reflexivity.
Qed.

Lemma frame_playing_score inp g :
  gameOver g = false ->
  score (frame inp g) =
  score (updatePlatforms (scrollUp (fallOutCheck (playerUpdate (handleInput inp g))))).
Proof.
  intros H. rewrite (core_score _ _ (frame_playing_core inp g H)).
  unfold physics. apply handleCollisions_score.
Qed.

(** C3, as the code has it:
    [updatePlatforms] moves a platform by minus the
    vertical velocity of the player; if its [y] is then above 700 the
    platform is put at [y = 0] and at [x = rand() % 500], an integer of
    [0 .. 499] (the width of the window less one: the width of the
    platform is not taken off), and the score is incremented, by
    exactly 1 as long as the counter is below [INT_MAX]; otherwise the
    platform stays where the move put it and the score is unchanged.
    In a frame that starts with the game not over every platform is
    treated so, and the score changes only in [updatePlatforms], by the
    number of platforms sent back to the top, so it does not decrease. *)
Theorem C3_recycle_and_score (inp : FrameInput) (g : Game) (p : Platform.t) :
  let vel := Player.getVelocityY (player g) in
  let y1 := F32.sub (Vector2f.y (Platform.getPosition p)) vel in
  (F32.gtb y1 (F32.of_int 700) = false ->
   update_platform p g =
   (Platform.mk (Vector2f.mk (Vector2f.x (Platform.getPosition p)) y1), g))
  /\ (F32.gtb y1 (F32.of_int 700) = true ->
      exists r : Z,
        0 <= r <= 499
        /\ r = Z.rem (Z.of_N (rand_seq (rand_calls g))) 500
        /\ fst (update_platform p g) = Platform.new (F32.of_int r) (F32.of_int 0)
        /\ score (snd (update_platform p g)) = incr_score (score g)
        /\ (0 <= score g < INT_MAX ->
            score (snd (update_platform p g)) = score g + 1))
  /\ (gameOver g = false ->
      let g4 := scrollUp (fallOutCheck (playerUpdate (handleInput inp g))) in
      Forall2 (updated (Player.getVelocityY (player g4)))
              (platforms g4) (platforms (frame inp g))
      /\ score g4 = score g
      /\ score (frame inp g) = score (updatePlatforms g4)
      /\ (0 <= score g ->
          score g + Z.of_nat (List.length (platforms g)) <= INT_MAX ->
          score (frame inp g) =
            score g + Z.of_nat (recycled (Player.getVelocityY (player g4)) (platforms g4))
          /\ score g <= score (frame inp g))).
Proof.
  intros vel y1. split; [|split].
  - intros Hno. rewrite update_platform_eq. unfold recycles.
    change (Vector2f.y (Platform.getPosition (Platform.move p (Player.dy (player g)))))
      with y1.
    rewrite Hno. reflexivity.
  - intros Hyes. exists (Z.rem (Z.of_N (rand_seq (rand_calls g))) 500).
    rewrite update_platform_eq. unfold recycles.
    change (Vector2f.y (Platform.getPosition (Platform.move p (Player.dy (player g)))))
      with y1.
    rewrite Hyes. cbn [fst snd score set_score].
    split.
    { pose proof (Z.rem_bound_pos (Z.of_N (rand_seq (rand_calls g))) 500) as Hb.
      lia. }
    split; [reflexivity|]. split; [reflexivity|]. split; [reflexivity|].
    intros Hs. unfold incr_score. apply wrap_int_id. unfold INT_MAX in *. lia.
  - intros H g4. unfold Player.getVelocityY.
    assert (Hs4 : score g4 = score g) by apply score_before_platforms.
    assert (Hl4 : List.length (platforms g4) = List.length (platforms g))
      by apply length_before_platforms.
    assert (Hf : score (frame inp g) = score (updatePlatforms g4))
      by apply (frame_playing_score inp g H).
    split; [|split; [exact Hs4|split; [exact Hf|]]].
    + rewrite (core_platforms _ _ (frame_playing_core inp g H)).
      unfold physics. fold g4.
      rewrite handleCollisions_platforms, updatePlatforms_spec. cbn [platforms].
      apply update_each_platforms.
    + intros H0 Hmax.
      assert (Hn : score (updatePlatforms g4) =
                   score g + Z.of_nat (recycled (Player.dy (player g4)) (platforms g4))).
      { rewrite updatePlatforms_score, Hs4. apply iter_incr_score; [exact H0|].
        pose proof (recycled_le (Player.dy (player g4)) (platforms g4)). lia. }
      split; [congruence|]. rewrite Hf, Hn. lia.
Qed.

Lemma bounces_snoc l : bounces (l ++ [SoundPlay]) = S (bounces l).
Proof.
  unfold bounces. rewrite filter_app, length_app. cbn [filter List.length]. lia.
Qed.

Lemma fold_collide_not_downward ps g :
  F32.gtb (Player.dy (player g)) (F32.of_int 0) = false ->
  fold_left collide ps g = g.
Proof.
  intros H. rewrite fold_collide_spec, H, andb_false_r. reflexivity.
Qed.

(** C4, as the code has it:
    in a collision pass, if some platform overlaps the
    box of the player and the player enters the pass moving downward,
    one hit is processed, the first in the order of the collection: the
    velocity becomes -8.0 and the bounce is played once.  The platforms
    that come after it are not processed, since the player no longer
    moves downward, whatever their overlap.  If there is no such
    platform the pass changes nothing. *)
Theorem C4_one_hit_per_pass (g : Game) :
  let hit :=
    some_overlap (player g) (platforms g)
    && F32.gtb (Player.getVelocityY (player g)) (F32.of_int 0) in
  (hit = true ->
   handleCollisions g = emit SoundPlay (set_player (Player.jump (player g)) g)
   /\ Player.getVelocityY (player (handleCollisions g)) = F32.neg (F32.of_int 8)
   /\ bounces (effects (handleCollisions g)) = S (bounces (effects g)))
  /\ (hit = false -> handleCollisions g = g)
  /\ (forall before rest,
         platforms g = before ++ rest ->
         some_overlap (player g) before
         && F32.gtb (Player.getVelocityY (player g)) (F32.of_int 0) = true ->
         fold_left collide before g
           = emit SoundPlay (set_player (Player.jump (player g)) g)
         /\ fold_left collide rest (fold_left collide before g)
           = fold_left collide before g
         /\ handleCollisions g = fold_left collide before g).
Proof.
  intros hit. unfold hit, Player.getVelocityY. split; [|split].
  - intros Hhit. rewrite handleCollisions_spec, Hhit.
    split; [reflexivity|]. split; [reflexivity|].
    cbn [effects emit set_player]. apply bounces_snoc.
  - intros Hno. rewrite handleCollisions_spec, Hno. reflexivity.
  - intros before rest Hsplit Hhit.
    assert (Hb : fold_left collide before g
                 = emit SoundPlay (set_player (Player.jump (player g)) g)).
    { rewrite fold_collide_spec, Hhit. reflexivity. }
    assert (Hr : fold_left collide rest (fold_left collide before g)
                 = fold_left collide before g).
    { apply fold_collide_not_downward. rewrite Hb. exact F32_jump_not_downward. }
    split; [exact Hb|]. split; [exact Hr|].
    unfold handleCollisions. rewrite Hsplit, fold_left_app. exact Hr.
Qed.


(** C6: for a platform and a state of the game, the body of the loop of
    [handleCollisions] plays the bounce and sets the velocity to -8.0 if
    and only if the four comparisons of the boxes hold and the player
    moves downward; otherwise it changes nothing, and so it does when
    the player moves upward. *)
Theorem C6_collision_trigger (g : Game) (platform : Platform.t) :
  let pl := Player.getPosition (player g) in
  let p := Platform.getPosition platform in
  let vel := Player.getVelocityY (player g) in
  let g' := collide g platform in
  let triggers :=
    effects g' = effects g ++ [SoundPlay]
    /\ Player.getVelocityY (player g') = F32.neg (F32.of_int 8) in
  (triggers <->
   F32.gtb (F32.add (Vector2f.x pl) (F32.of_int 50)) (Vector2f.x p) = true
   /\ F32.ltb (F32.add (Vector2f.x pl) (F32.of_int 20))
              (F32.add (Vector2f.x p) (F32.of_int 68)) = true
   /\ F32.gtb (F32.add (Vector2f.y pl) (F32.of_int 70)) (Vector2f.y p) = true
   /\ F32.ltb (F32.add (Vector2f.y pl) (F32.of_int 70))
              (F32.add (Vector2f.y p) (F32.of_int 14)) = true
   /\ F32.gtb vel (F32.of_int 0) = true)
  /\ (~ triggers -> g' = g)
  /\ (F32.ltb vel (F32.of_int 0) = true -> g' = g).
Proof.
  intros pl p vel g' triggers.
  assert (Hcases :
    (boxes_overlap pl p && F32.gtb vel (F32.of_int 0) = true /\ triggers)
    \/ (boxes_overlap pl p && F32.gtb vel (F32.of_int 0) = false /\ g' = g)).
  { unfold triggers, g', collide. fold pl p vel.
    destruct (boxes_overlap pl p && F32.gtb vel (F32.of_int 0)); [left|right];
      repeat split; reflexivity. }
  assert (Hnot : g' = g -> ~ triggers).
  { unfold triggers. intros -> [He _].
    apply (f_equal (@List.length effect)) in He. rewrite length_app in He.
    cbn [List.length] in He. lia. }
  split; [|split].
  - unfold boxes_overlap in Hcases. rewrite !andb_true_iff in Hcases.
    destruct Hcases as [[Hc Ht]|[Hc Hg]].
    + tauto.
    + split; [intros Ht; destruct (Hnot Hg Ht)|].
      intros (H1 & H2 & H3 & H4 & H5).
      rewrite H1, H2, H3, H4, H5 in Hc. discriminate Hc.
  - destruct Hcases as [[_ Ht]|[_ Hg]]; [tauto|intros _; exact Hg].
  - intros Hup. destruct Hcases as [[Hc _]|[_ Hg]]; [|exact Hg].
    apply andb_true_iff in Hc. destruct Hc as [_ Hc].
    rewrite (F32_ltb_gtb_false _ _ Hup) in Hc. discriminate Hc.
Qed.

Lemma y_after_update inp g :
  Vector2f.y (Player.getPosition (player (playerUpdate (handleInput inp g))))
  = F32.add (Vector2f.y (Player.getPosition (player g)))
            (F32.add (Player.dy (player g)) F32.lit_0_2).
Proof.
  unfold playerUpdate, Player.getPosition.
  cbn [player set_player Player.update Player.applyGravity Player.position Vector2f.y].
  rewrite handleInput_dy, handleInput_y. reflexivity.
Qed.

Lemma physics_gameOver inp g :
  gameOver (physics inp g) =
  F32.gtb (Vector2f.y (Player.getPosition (player (playerUpdate (handleInput inp g)))))
          (F32.of_int 700)
  || gameOver g.
Proof.
  unfold physics.
  rewrite handleCollisions_gameOver, updatePlatforms_gameOver, scrollUp_gameOver,
    fallOutCheck_gameOver.
  f_equal. unfold playerUpdate. cbn [gameOver set_player]. apply handleInput_gameOver.
Qed.

Lemma physics_length inp g :
  List.length (platforms (physics inp g)) = List.length (platforms g).
Proof.
  unfold physics.
  rewrite handleCollisions_platforms, updatePlatforms_length.
  apply length_before_platforms.
Qed.

(** After a reset the player is back on the screen at the end of the
    physics update: the fall-out check of that frame does not fire. *)
Lemma physics_after_reset inp g : gameOver (physics inp (resetGame g)) = false.
Proof.
  rewrite physics_gameOver, y_after_update, resetGame_eq.
  cbn [player gameOver Player.getPosition Player.position Player.dy Vector2f.y].
  vm_compute. reflexivity.
Qed.

(** C7: in a frame that starts with the flag false, the flag is true at
    the end exactly when the [y] of the player after the physics update
    is above 700.  In a frame that starts with the flag true, the loop
    over the events calls [resetGame] or leaves the game as it is; the
    flag is false at the end exactly when [resetGame] was called; and
    when it was not, nothing of the simulation changes in the frame,
    which only presents the game. *)
Theorem C7_game_over_flag (inp : FrameInput) (g : Game) :
  (gameOver g = false ->
   gameOver (frame inp g) =
   F32.gtb (Vector2f.y (Player.getPosition (player (playerUpdate (handleInput inp g)))))
           (F32.of_int 700))
  /\ (gameOver g = true ->
      let retry := window_isOpen g && retry_pressed (events inp) in
      (exists b, pollEvents (events inp) g
                 = set_window_isOpen b (if retry then resetGame g else g))
      /\ (gameOver (frame inp g) = false <-> retry = true)
      /\ (retry = false ->
          core (frame inp g) = core g
          /\ effects (frame inp g) = effects g ++ presentation g)).
Proof.
  split.
  - intros H. rewrite (core_gameOver _ _ (frame_playing_core inp g H)).
    rewrite physics_gameOver, H. apply orb_false_r.
  - intros H retry. split; [apply (pollEvents_over (events inp) g H)|].
    destruct (frame_over inp g H) as [b Hb]. fold retry in Hb.
    destruct retry.
    + split; [|intros Hf; discriminate Hf].
      split; [reflexivity|]. intros _. rewrite Hb, draw_eq.
      apply physics_after_reset.
    + split.
      * rewrite Hb, draw_eq. cbn [gameOver set_window_isOpen add_effects].
        rewrite H. split; intros Hf; discriminate Hf.
      * intros _. rewrite Hb, draw_eq. split; reflexivity.
Qed.

Lemma fresh_platform_in_range c i :
  exists rx ry : Z,
    0 <= rx <= 499 /\ 0 <= ry <= 699
    /\ fresh_platform c i = Platform.new (F32.of_int rx) (F32.of_int ry).
Proof.
  unfold fresh_platform.
  pose proof (Z.rem_bound_pos (Z.of_N (rand_seq (c + 2 * i))) 500) as Ha5.
  pose proof (Z.rem_bound_pos (Z.of_N (rand_seq (c + 2 * i))) 700) as Ha7.
  pose proof (Z.rem_bound_pos (Z.of_N (rand_seq (c + 2 * i + 1))) 500) as Hb5.
  pose proof (Z.rem_bound_pos (Z.of_N (rand_seq (c + 2 * i + 1))) 700) as Hb7.
  destruct args_left_to_right;
    eexists; eexists; (split; [|split; [|reflexivity]]); lia.
Qed.

(** C8: after [resetGame] the player is at (200, 200) with velocities
    0, the score is 0, the flag is false, and the collection holds 10
    platforms, each built from two new values of [rand()]: its [x] is
    one of them modulo 500 and its [y] the other modulo 700. *)
Theorem C8_reset_state (g : Game) :
  let g' := resetGame g in
  Player.getPosition (player g') = Vector2f.mk (F32.of_int 200) (F32.of_int 200)
  /\ Player.dx (player g') = F32.of_int 0
  /\ Player.getVelocityY (player g') = F32.of_int 0
  /\ score g' = 0
  /\ gameOver g' = false
  /\ List.length (platforms g') = 10%nat
  /\ platforms g' = map (fresh_platform (rand_calls g)) (seq 0 10)
  /\ rand_calls g' = (rand_calls g + 20)%nat
  /\ Forall (fun p => exists rx ry : Z,
                 0 <= rx <= 499 /\ 0 <= ry <= 699
                 /\ p = Platform.new (F32.of_int rx) (F32.of_int ry))
            (platforms g').
Proof.
  intros g'. unfold g'. rewrite resetGame_eq.
  cbn [player score gameOver platforms rand_calls Player.getPosition
       Player.position Player.dx Player.getVelocityY Player.dy].
  repeat (split; [reflexivity|]).
  apply Forall_forall. intros p Hin. apply in_map_iff in Hin.
  destruct Hin as [i [<- _]]. apply fresh_platform_in_range.
Qed.

(** *** The size of the collection *)

Lemma resetGame_length g : List.length (platforms (resetGame g)) = 10%nat.
Proof. rewrite resetGame_eq. reflexivity. Qed.

Lemma frame_length inp g :
  List.length (platforms (frame inp g)) =
  if gameOver g && (window_isOpen g && retry_pressed (events inp))
  then 10%nat else List.length (platforms g).
Proof.
  destruct (gameOver g) eqn:H; cbn [andb].
  - destruct (frame_over inp g H) as [b Hb]. rewrite Hb.
    destruct (window_isOpen g && retry_pressed (events inp));
      rewrite draw_eq; cbn [platforms set_window_isOpen add_effects].
    + rewrite physics_length. apply resetGame_length.
    + reflexivity.
  - destruct (frame_playing inp g H) as [b Hb]. rewrite Hb, draw_eq.
    cbn [platforms set_window_isOpen add_effects]. apply physics_length.
Qed.

(** A game that holds 10 platforms holds 10 after every frame. *)
Lemma run_length_10 inputs g :
  List.length (platforms g) = 10%nat ->
  List.length (platforms (run inputs g)) = 10%nat.
Proof.
  revert g. induction inputs as [|inp rest IH]; intros g H.
  - exact H.
  - cbn [run]. destruct (window_isOpen g); [|exact H].
    apply IH. rewrite frame_length. destruct (_ && _); [reflexivity|exact H].
Qed.

(** When the font and the sound are loaded the game holds 10 platforms
    from the constructor on. *)
Lemma Game_new_loaded_length inputs :
  List.length (platforms (run inputs (Game_new true true))) = 10%nat.
Proof. apply run_length_10. unfold Game_new. cbn [negb]. apply resetGame_length. Qed.

(** C9: when the font is not loaded the constructor returns before
    [resetGame]: the game starts with the flag false and no platform,
    and still has none after a frame of play; the same holds when the
    sound is not loaded. *)
Theorem C9_no_platforms_when_load_fails (sound_ok : bool) (inp : FrameInput) :
  gameOver (Game_new false sound_ok) = false
  /\ List.length (platforms (Game_new false sound_ok)) = 0%nat
  /\ List.length (platforms (frame inp (Game_new false sound_ok))) = 0%nat
  /\ List.length (platforms (frame inp (Game_new true false))) = 0%nat.
Proof.
  split; [reflexivity|]. split; [reflexivity|].
  split; rewrite frame_length; reflexivity.
Qed.

(** C10: in the frame in which the fall-out check sets the flag, the
    scroll-up check (which finds nothing to do), the update of the
    platforms with its scoring and the collision pass are run on the
    state that has the flag set, and the frame ends with the flag true;
    in a following frame without a retry nothing of the simulation
    changes. *)
Theorem C10_game_over_frame_completes (inp : FrameInput) (g : Game) :
  gameOver g = false ->
  let g2 := playerUpdate (handleInput inp g) in
  F32.gtb (Vector2f.y (Player.getPosition (player g2))) (F32.of_int 700) = true ->
  let g3 := set_gameOver true g2 in
  fallOutCheck g2 = g3
  /\ scrollUp g3 = g3
  /\ core (frame inp g) = core (handleCollisions (updatePlatforms g3))
  /\ gameOver (frame inp g) = true
  /\ score (frame inp g) =
       Nat.iter (recycled (Player.getVelocityY (player g2)) (platforms g))
                incr_score (score g)
  /\ (forall inp',
         window_isOpen (frame inp g) && retry_pressed (events inp') = false ->
         core (frame inp' (frame inp g)) = core (frame inp g)).
Proof.
  intros H g2 Hfall g3.
  assert (H3 : fallOutCheck g2 = g3) by (unfold fallOutCheck; rewrite Hfall; reflexivity).
  assert (H4 : scrollUp g3 = g3).
  { unfold scrollUp. change (player g3) with (player g2).
    rewrite (F32_gtb_700_ltb_300 _ Hfall). reflexivity. }
  assert (Hc : core (frame inp g) = core (handleCollisions (updatePlatforms g3))).
  { rewrite (frame_playing_core inp g H). unfold physics. fold g2.
    rewrite H3, H4. reflexivity. }
  assert (Hover : gameOver (frame inp g) = true).
  { rewrite (core_gameOver _ _ Hc), handleCollisions_gameOver,
      updatePlatforms_gameOver. reflexivity. }
  split; [exact H3|]. split; [exact H4|]. split; [exact Hc|].
  split; [exact Hover|]. split.
  - rewrite (core_score _ _ Hc), handleCollisions_score, updatePlatforms_score.
    unfold g3, g2, playerUpdate, Player.getVelocityY.
    cbn [player platforms score set_gameOver set_player].
    rewrite handleInput_platforms, handleInput_score. reflexivity.
  - intros inp' Hretry.
    destruct (frame_over inp' (frame inp g) Hover) as [b Hb].
    rewrite Hretry in Hb. rewrite Hb, core_set_window. apply core_draw.
Qed.

(** ** More on the frames *)

Lemma move_x_same g : move_x (Vector2f.x (Player.position (player g))) g = g.
Proof. destruct g as [w [[px py] pdx pdy] ps s go st rc ef]. reflexivity. Qed.

Lemma handleInput_move_x inp g : exists x, handleInput inp g = move_x x g.
Proof.
  unfold handleInput. destruct (key_Left inp), (key_Right inp).
  - eexists. reflexivity.
  - eexists. reflexivity.
  - eexists. reflexivity.
  - eexists. symmetry. apply move_x_same.
Qed.

Lemma playerUpdate_move_x a g : playerUpdate (move_x a g) = move_x a (playerUpdate g).
Proof. reflexivity. Qed.

Lemma fallOutCheck_move_x a g : fallOutCheck (move_x a g) = move_x a (fallOutCheck g).
Proof.
  unfold fallOutCheck.
  change (Vector2f.y (Player.getPosition (player (move_x a g))))
    with (Vector2f.y (Player.getPosition (player g))).
  split_ifs; reflexivity.
Qed.

Lemma scrollUp_move_x a g : scrollUp (move_x a g) = move_x a (scrollUp g).
Proof.
  unfold scrollUp.
  change (Vector2f.y (Player.getPosition (player (move_x a g))))
    with (Vector2f.y (Player.getPosition (player g))).
  split_ifs; reflexivity.
Qed.

Lemma update_each_player p ps g :
  Player.dy p = Player.dy (player g) ->
  update_each ps (set_player p g) =
  (fst (update_each ps g), set_player p (snd (update_each ps g))).
Proof.
  revert g. induction ps as [|q rest IH]; intros g Hdy.
  - reflexivity.
  - rewrite !update_each_cons, !update_platform_eq.
    change (player (set_player p g)) with p. rewrite Hdy.
    destruct (recycles (Player.dy (player g)) q); cbn [fst snd].
    + change (set_score (incr_score (score (set_player p g)))
                (set_rand_calls (S (rand_calls (set_player p g))) (set_player p g)))
        with (set_player p
                (set_score (incr_score (score g))
                   (set_rand_calls (S (rand_calls g)) g))).
      rewrite IH by exact Hdy. reflexivity.
    + rewrite IH by exact Hdy. reflexivity.
Qed.

Lemma updatePlatforms_move_x a g :
  updatePlatforms (move_x a g) = move_x a (updatePlatforms g).
Proof.
  rewrite !updatePlatforms_spec. cbv zeta. unfold move_x.
  cbn [platforms player score rand_calls gameOver effects window_isOpen
       set_player Player.dy].
  rewrite update_each_player by reflexivity. reflexivity.
Qed.

Lemma before_collisions_move_x inp g :
  exists a,
    updatePlatforms (scrollUp (fallOutCheck (playerUpdate (handleInput inp g))))
    = move_x a (updatePlatforms (scrollUp (fallOutCheck (playerUpdate g)))).
Proof.
  destruct (handleInput_move_x inp g) as [a Ha]. exists a.
  rewrite Ha, playerUpdate_move_x, fallOutCheck_move_x, scrollUp_move_x,
    updatePlatforms_move_x.
  reflexivity.
Qed.

Lemma handleCollisions_rand_calls g : rand_calls (handleCollisions g) = rand_calls g.
Proof. rewrite handleCollisions_spec. split_ifs; reflexivity. Qed.
Lemma handleCollisions_scoreText g : scoreText (handleCollisions g) = scoreText g.
Proof. rewrite handleCollisions_spec. split_ifs; reflexivity. Qed.
Lemma handleCollisions_position g :
  Player.position (player (handleCollisions g)) = Player.position (player g).
Proof. rewrite handleCollisions_spec. split_ifs; reflexivity. Qed.
Lemma handleCollisions_dx g :
  Player.dx (player (handleCollisions g)) = Player.dx (player g).
Proof. rewrite handleCollisions_spec. split_ifs; reflexivity. Qed.

Lemma core_rand_calls g g' : core g = core g' -> rand_calls g = rand_calls g'.
Proof. unfold core. congruence. Qed.
Lemma core_scoreText g g' : core g = core g' -> scoreText g = scoreText g'.
Proof. unfold core. congruence. Qed.

(** X1: in a frame of play the keys steer and nothing else: the
    platforms, the score and its text, the flag, the number of calls of
    [rand()] and the height of the player at the end of the frame are
    those of the same frame run with no key held. *)
Theorem X1_keys_only_steer (inp : FrameInput) (g : Game) :
  gameOver g = false ->
  let q := updatePlatforms (scrollUp (fallOutCheck (playerUpdate g))) in
  platforms (frame inp g) = platforms q
  /\ score (frame inp g) = score q
  /\ scoreText (frame inp g) = scoreText q
  /\ gameOver (frame inp g) = gameOver q
  /\ rand_calls (frame inp g) = rand_calls q
  /\ Vector2f.y (Player.getPosition (player (frame inp g)))
     = Vector2f.y (Player.getPosition (player q)).
Proof.
  intros H q.
  pose proof (frame_playing_core inp g H) as Hc. unfold physics in Hc.
  destruct (before_collisions_move_x inp g) as [a Ha]. fold q in Ha.
  rewrite Ha in Hc.
  rewrite (core_platforms _ _ Hc), (core_score _ _ Hc), (core_scoreText _ _ Hc),
    (core_gameOver _ _ Hc), (core_rand_calls _ _ Hc), (core_player _ _ Hc).
  rewrite handleCollisions_platforms, handleCollisions_score,
    handleCollisions_scoreText, handleCollisions_gameOver,
    handleCollisions_rand_calls.
  unfold Player.getPosition. rewrite handleCollisions_position.
  repeat split; reflexivity.
Qed.

Lemma scrollUp_not_above g :
  F32.ltb (Vector2f.y (Player.position (player (scrollUp g)))) (F32.of_int 300) = false.
Proof.
  unfold scrollUp, Player.getPosition.
  destruct (F32.ltb (Vector2f.y (Player.position (player g))) (F32.of_int 300)) eqn:E.
  - cbn [player set_platforms set_player Player.setPosition Player.position Vector2f.y].
    vm_compute. reflexivity.
  - exact E.
Qed.

Lemma physics_not_above inp g :
  F32.ltb (Vector2f.y (Player.position (player (physics inp g)))) (F32.of_int 300)
  = false.
Proof.
  unfold physics. rewrite handleCollisions_position, updatePlatforms_player.
  apply scrollUp_not_above.
Qed.

(** X2: a frame never leaves the player above the line y = 300: if the
    game is not over at the start of the frame, or the player was not
    above the line, the [y] of the player at the end of the frame is
    not below 300. *)
Theorem X2_player_kept_under_line (inp : FrameInput) (g : Game) :
  gameOver g = false
  \/ F32.ltb (Vector2f.y (Player.getPosition (player g))) (F32.of_int 300) = false ->
  F32.ltb (Vector2f.y (Player.getPosition (player (frame inp g)))) (F32.of_int 300)
  = false.
Proof.
  unfold Player.getPosition. intros H.
  destruct (gameOver g) eqn:Hover.
  - destruct H as [H|H]; [discriminate H|].
    destruct (frame_over inp g Hover) as [b Hb]. rewrite Hb.
    destruct (window_isOpen g && retry_pressed (events inp)); rewrite draw_eq;
      cbn [player set_window_isOpen add_effects].
    + apply physics_not_above.
    + exact H.
  - rewrite (core_player _ _ (frame_playing_core inp g Hover)).
    apply physics_not_above.
Qed.

Lemma updated_not_below vel p p' :
  updated vel p p' ->
  F32.gtb (Vector2f.y (Platform.getPosition p')) (F32.of_int 700) = false.
Proof.
  unfold updated. destruct (recycles vel p) eqn:E.
  - intros [k ->]. vm_compute. reflexivity.
  - intros ->. exact E.
Qed.

Lemma Forall2_right_Forall {A B} (R : A -> B -> Prop) (P : B -> Prop) l l' :
  (forall a b, R a b -> P b) -> Forall2 R l l' -> Forall P l'.
Proof.
  intros HRP HF. induction HF as [|a b l l' Hab _ IH]; constructor; eauto.
Qed.

(** X3: at the end of a frame of play no platform is below the bottom
    of the window: none has [y > 700]. *)
Theorem X3_no_platform_below_bottom (inp : FrameInput) (g : Game) :
  gameOver g = false ->
  Forall (fun p => F32.gtb (Vector2f.y (Platform.getPosition p)) (F32.of_int 700) = false)
         (platforms (frame inp g)).
Proof.
  intros H. rewrite (core_platforms _ _ (frame_playing_core inp g H)).
  unfold physics. rewrite handleCollisions_platforms, updatePlatforms_spec.
  cbn [platforms].
  eapply Forall2_right_Forall; [|apply update_each_platforms].
  intros p p'. apply updated_not_below.
Qed.

(** ** What every run of the program keeps *)

Lemma run_invariant (P : Game -> Prop) :
  (forall inp g, P g -> P (frame inp g)) ->
  forall inputs g, P g -> P (run inputs g).
Proof.
  intros Hstep inputs. induction inputs as [|inp rest IH]; intros g Hg.
  - exact Hg.
  - cbn [run]. destruct (window_isOpen g); [|exact Hg]. apply IH, Hstep, Hg.
Qed.

(** A property of the simulation that [resetGame] establishes and the
    physics of a frame keeps is kept by every frame. *)
Lemma frame_keeps (P : Game -> Prop) :
  (forall b g, P g -> P (set_window_isOpen b g)) ->
  (forall l g, P g -> P (add_effects l g)) ->
  (forall g, P (resetGame g)) ->
  (forall inp g, P g -> P (physics inp g)) ->
  forall inp g, P g -> P (frame inp g).
Proof.
  intros Hw He Hr Hp inp g Hg. destruct (gameOver g) eqn:Hover.
  - destruct (frame_over inp g Hover) as [b Hb]. rewrite Hb. apply Hw.
    destruct (window_isOpen g && retry_pressed (events inp));
      rewrite draw_eq; apply He.
    + apply Hp, Hr.
    + exact Hg.
  - destruct (frame_playing inp g Hover) as [b Hb]. rewrite Hb. apply Hw.
    rewrite draw_eq. apply He, Hp, Hg.
Qed.

Lemma Forall2_keeps {A} (R : A -> A -> Prop) (P : A -> Prop) l l' :
  (forall a b, P a -> R a b -> P b) -> Forall P l -> Forall2 R l l' -> Forall P l'.
Proof.
  intros HRP HP HF. induction HF as [|a b l l' Hab _ IH].
  - constructor.
  - inversion HP; subst. constructor; eauto.
Qed.

Lemma updated_x_in_window vel p p' :
  x_in_window p -> updated vel p p' -> x_in_window p'.
Proof.
  unfold updated. intros Hp. destruct (recycles vel p).
  - intros [k ->]. exists (Z.rem (Z.of_N (rand_seq k)) 500). split; [|reflexivity].
    pose proof (Z.rem_bound_pos (Z.of_N (rand_seq k)) 500). lia.
  - intros ->. exact Hp.
Qed.

Lemma scrollUp_x_in_window g :
  Forall x_in_window (platforms g) -> Forall x_in_window (platforms (scrollUp g)).
Proof.
  intros H. unfold scrollUp. split_ifs; [|exact H].
  cbn [platforms set_platforms set_player].
  apply Forall_forall. intros p' Hin. apply in_map_iff in Hin.
  destruct Hin as [p [<- Hin]]. rewrite Forall_forall in H. exact (H p Hin).
Qed.

Lemma physics_x_in_window inp g :
  Forall x_in_window (platforms g) -> Forall x_in_window (platforms (physics inp g)).
Proof.
  intros H. unfold physics.
  rewrite handleCollisions_platforms, updatePlatforms_spec. cbn [platforms].
  eapply Forall2_keeps; [| |apply update_each_platforms].
  - intros p p'. apply updated_x_in_window.
  - apply scrollUp_x_in_window. rewrite fallOutCheck_platforms.
    unfold playerUpdate. cbn [platforms set_player].
    rewrite handleInput_platforms. exact H.
Qed.

Lemma resetGame_x_in_window g : Forall x_in_window (platforms (resetGame g)).
Proof.
  rewrite resetGame_eq. cbn [platforms]. apply Forall_forall. intros p Hin.
  apply in_map_iff in Hin. destruct Hin as [i [<- _]].
  destruct (fresh_platform_in_range (rand_calls g) i) as (rx & ry & Hx & _ & ->).
  exists rx. split; [exact Hx|reflexivity].
Qed.

(** X4: whatever the fonts and the sounds, the keys and the events, the
    abscissa of every platform of the program is an integer of
    [0 .. 499] after every frame. *)
Theorem X4_platforms_stay_in_columns (font_ok sound_ok : bool)
        (inputs : list FrameInput) :
  Forall x_in_window (platforms (main font_ok sound_ok inputs)).
Proof.
  unfold main.
  apply (run_invariant (fun g => Forall x_in_window (platforms g))).
  - apply frame_keeps.
    + intros b g H. exact H.
    + intros l g H. exact H.
    + apply resetGame_x_in_window.
    + apply physics_x_in_window.
  - unfold Game_new. destruct font_ok, sound_ok; cbn [negb];
      try apply resetGame_x_in_window; constructor.
Qed.

(** X5: the program holds 10 platforms after every frame when the font
    and the sound are loaded, and 0 or 10 in any case. *)
Theorem X5_collection_size (font_ok sound_ok : bool) (inputs : list FrameInput) :
  List.length (platforms (main true true inputs)) = 10%nat
  /\ (List.length (platforms (main font_ok sound_ok inputs)) = 0%nat
      \/ List.length (platforms (main font_ok sound_ok inputs)) = 10%nat).
Proof.
  split.
  - unfold main. apply run_length_10. unfold Game_new. cbn [negb].
    apply resetGame_length.
  - unfold main.
    apply (run_invariant
             (fun g => List.length (platforms g) = 0%nat
                       \/ List.length (platforms g) = 10%nat)).
    + intros inp g H. rewrite frame_length.
      destruct (_ && _); [right; reflexivity|exact H].
    + unfold Game_new. destruct font_ok, sound_ok; cbn [negb];
        try (right; apply resetGame_length); left; reflexivity.
Qed.

Lemma physics_dx inp g :
  Player.dx (player (physics inp g)) = Player.dx (player g).
Proof.
  unfold physics. destruct (before_collisions_move_x inp g) as [a Ha].
  rewrite handleCollisions_dx, Ha. unfold move_x. cbn [player set_player Player.dx].
  rewrite updatePlatforms_player.
  unfold scrollUp. split_ifs;
    cbn [player set_platforms set_player Player.setPosition Player.dx];
    rewrite fallOutCheck_player; reflexivity.
Qed.

(** X6: the horizontal velocity [dx] of the player is 0 after every
    frame of the program: nothing but the constructor and [reset]
    writes it. *)
Theorem X6_dx_is_never_used (font_ok sound_ok : bool) (inputs : list FrameInput) :
  Player.dx (player (main font_ok sound_ok inputs)) = F32.of_int 0.
Proof.
  unfold main.
  apply (run_invariant (fun g => Player.dx (player g) = F32.of_int 0)).
  - apply frame_keeps.
    + intros b g H. exact H.
    + intros l g H. exact H.
    + intros g. rewrite resetGame_eq. reflexivity.
    + intros inp g H. rewrite physics_dx. exact H.
  - unfold Game_new. destruct font_ok, sound_ok; cbn [negb];
      try (rewrite resetGame_eq); reflexivity.
Qed.

Lemma physics_score inp g :
  score (physics inp g) =
  Nat.iter
    (recycled
       (Player.dy (player (scrollUp (fallOutCheck (playerUpdate (handleInput inp g))))))
       (platforms (scrollUp (fallOutCheck (playerUpdate (handleInput inp g))))))
    incr_score (score g).
Proof.
  unfold physics.
  rewrite handleCollisions_score, updatePlatforms_score, score_before_platforms.
  reflexivity.
Qed.

Lemma physics_score_bound inp g :
  (List.length (platforms g) <= 10)%nat ->
  0 <= score g -> score g + 10 <= INT_MAX ->
  score g <= score (physics inp g) <= score g + 10.
Proof.
  intros Hlen H0 Hmax. rewrite physics_score.
  pose proof (recycled_le
    (Player.dy (player (scrollUp (fallOutCheck (playerUpdate (handleInput inp g))))))
    (platforms (scrollUp (fallOutCheck (playerUpdate (handleInput inp g)))))) as Hr.
  rewrite length_before_platforms in Hr.
  rewrite iter_incr_score by lia. lia.
Qed.

Lemma frame_score_bound inp g :
  (List.length (platforms g) <= 10)%nat ->
  0 <= score g -> score g + 10 <= INT_MAX ->
  0 <= score (frame inp g) <= score g + 10.
Proof.
  intros Hlen H0 Hmax. destruct (gameOver g) eqn:Hover.
  - destruct (frame_over inp g Hover) as [b Hb]. rewrite Hb.
    destruct (window_isOpen g && retry_pressed (events inp)); rewrite draw_eq;
      cbn [score set_window_isOpen add_effects].
    + pose proof (physics_score_bound inp (resetGame g)) as Hp.
      rewrite resetGame_length in Hp.
      assert (Hs : score (resetGame g) = 0) by (rewrite resetGame_eq; reflexivity).
      rewrite Hs in Hp. unfold INT_MAX in *. lia.
    + lia.
  - rewrite (core_score _ _ (frame_playing_core inp g Hover)).
    pose proof (physics_score_bound inp g Hlen H0 Hmax). lia.
Qed.

Lemma run_score_bound inputs g :
  (List.length (platforms g) <= 10)%nat ->
  0 <= score g ->
  score g + 10 * Z.of_nat (List.length inputs) <= INT_MAX ->
  0 <= score (run inputs g) <= score g + 10 * Z.of_nat (List.length inputs).
Proof.
  revert g. induction inputs as [|inp rest IH]; intros g Hlen H0 Hmax.
  - cbn [run List.length] in *. lia.
  - cbn [run]. cbn [List.length] in Hmax |- *.
    destruct (window_isOpen g); [|lia].
    pose proof (frame_score_bound inp g Hlen H0) as Hf.
    assert (Hlen' : (List.length (platforms (frame inp g)) <= 10)%nat).
    { rewrite frame_length. destruct (_ && _); lia. }
    specialize (IH (frame inp g) Hlen'). lia.
Qed.

(** X7: the score of the program is never negative and grows by at
    most 10 a frame: after [n] frames it is at most [10 n], as long as
    [10 n] fits an [int]. *)
Theorem X7_score_bounded_by_frames (font_ok sound_ok : bool)
        (inputs : list FrameInput) :
  10 * Z.of_nat (List.length inputs) <= INT_MAX ->
  0 <= score (main font_ok sound_ok inputs) <= 10 * Z.of_nat (List.length inputs).
Proof.
  intros Hmax. unfold main.
  assert (Hs : score (Game_new font_ok sound_ok) = 0).
  { unfold Game_new. destruct font_ok, sound_ok; cbn [negb];
      try (rewrite resetGame_eq); reflexivity. }
  assert (Hl : (List.length (platforms (Game_new font_ok sound_ok)) <= 10)%nat).
  { unfold Game_new. destruct font_ok, sound_ok; cbn [negb];
      try (rewrite resetGame_length); cbn; lia. }
  pose proof (run_score_bound inputs (Game_new font_ok sound_ok) Hl) as H.
  rewrite Hs in H. apply H; lia.
Qed.

(** X8: a game that is over stays as it is, frame after frame, as long
    as no frame handles an event with R held: the player, the
    platforms, the score and its text, the flag and the calls of
    [rand()] do not change. *)
Theorem X8_game_over_is_kept (inputs : list FrameInput) (g : Game) :
  gameOver g = true ->
  Forall (fun inp => retry_pressed (events inp) = false) inputs ->
  core (run inputs g) = core g.
Proof.
  revert g. induction inputs as [|inp rest IH]; intros g Hover Hno.
  - reflexivity.
  - cbn [run]. destruct (window_isOpen g) eqn:W; [|reflexivity].
    inversion Hno as [|i r Hinp Hrest]; subst.
    destruct (frame_over inp g Hover) as [b Hb].
    rewrite Hinp, andb_false_r in Hb.
    assert (Hc : core (frame inp g) = core g).
    { rewrite Hb, core_set_window. apply core_draw. }
    rewrite IH; [exact Hc| |exact Hrest].
    rewrite (core_gameOver _ _ Hc). exact Hover.
Qed.

(** ** The events, the sound and the text of the score *)

Lemma pollEvents_playing_eq evs g :
  gameOver g = false ->
  pollEvents evs g =
  set_window_isOpen (window_isOpen g && negb (existsb ev_closed evs)) g.
Proof.
  revert g. induction evs as [|e rest IH]; intros g H.
  - cbn [pollEvents existsb negb]. rewrite andb_true_r. symmetry. apply set_window_same.
  - cbn [pollEvents existsb]. destruct (window_isOpen g) eqn:W.
    + destruct (ev_closed e); cbn [orb negb andb].
      * change (gameOver (set_window_isOpen false g)) with (gameOver g). rewrite H.
        rewrite IH by exact H. reflexivity.
      * rewrite H, IH by exact H. rewrite W. reflexivity.
    + cbn [andb]. rewrite <- W. symmetry. apply set_window_same.
Qed.

(** X10: while the game is not over the loop over the events looks at
    nothing but the Closed events: R and Escape do nothing, the
    simulation is not touched, and the window is open at the end of the
    frame exactly when it was open and no event of the frame is Closed. *)
Theorem X10_keys_R_Escape_ignored_in_play (inp : FrameInput) (g : Game) :
  gameOver g = false ->
  pollEvents (events inp) g
  = set_window_isOpen (window_isOpen g && negb (existsb ev_closed (events inp))) g
  /\ window_isOpen (frame inp g)
     = window_isOpen g && negb (existsb ev_closed (events inp)).
Proof.
  intros H. split; [apply pollEvents_playing_eq, H|].
  rewrite frame_steps, (pollEvents_playing_eq _ _ H).
  change (gameOver (set_window_isOpen _ g)) with (gameOver g). rewrite H.
  cbn [negb]. rewrite blind_physics, draw_eq. reflexivity.
Qed.

Lemma pollEvents_over_no_R evs g :
  gameOver g = true ->
  forallb (fun e => negb (ev_key_R e)) evs = true ->
  pollEvents evs g =
  set_window_isOpen
    (window_isOpen g && negb (existsb (fun e => ev_closed e || ev_key_Escape e) evs)) g.
Proof.
  revert g. induction evs as [|e rest IH]; intros g H Hno.
  - cbn [pollEvents existsb negb]. rewrite andb_true_r. symmetry. apply set_window_same.
  - cbn [forallb] in Hno. apply andb_true_iff in Hno. destruct Hno as [He Hrest].
    apply negb_true_iff in He.
    cbn [pollEvents existsb]. rewrite He. destruct (window_isOpen g) eqn:W.
    + destruct (ev_closed e), (ev_key_Escape e); cbn [orb negb andb];
        change (gameOver (set_window_isOpen false g)) with (gameOver g);
        rewrite H; rewrite IH by assumption;
        try reflexivity.
      rewrite W. reflexivity.
    + cbn [andb]. rewrite <- W. symmetry. apply set_window_same.
Qed.

(** X11: when the game is over and no event of the frame is handled
    with R held, the frame changes nothing of the simulation, and the
    window is open at its end exactly when no event of the frame is
    Closed or handled with Escape held. *)
Theorem X11_escape_closes_when_over (inp : FrameInput) (g : Game) :
  gameOver g = true ->
  window_isOpen g = true ->
  no_retry inp ->
  core (frame inp g) = core g
  /\ window_isOpen (frame inp g)
     = negb (existsb (fun e => ev_closed e || ev_key_Escape e) (events inp)).
Proof.
  intros H W Hno. rewrite frame_steps, (pollEvents_over_no_R _ _ H Hno).
  change (gameOver (set_window_isOpen _ g)) with (gameOver g). rewrite H.
  cbn [negb]. rewrite draw_eq, W. split; reflexivity.
Qed.

Lemma bounces_app l l' : bounces (l ++ l') = (bounces l + bounces l')%nat.
Proof. unfold bounces. rewrite filter_app, length_app. reflexivity. Qed.

Lemma bounces_presentation g : bounces (presentation g) = 0%nat.
Proof.
  unfold presentation. rewrite !bounces_app.
  destruct (gameOver g); [reflexivity|]. rewrite !bounces_app.
  assert (Hp : bounces (map (fun p => DrawPlatform (Platform.getPosition p))
                            (platforms g)) = 0%nat).
  { induction (platforms g) as [|p l IH]; [reflexivity|exact IH]. }
  rewrite Hp. reflexivity.
Qed.

Lemma physics_bounce inp g :
  effects (physics inp g) = effects g
  \/ (effects (physics inp g) = effects g ++ [SoundPlay]
      /\ Player.dy (player (physics inp g)) = F32.neg (F32.of_int 8)).
Proof.
  unfold physics. rewrite handleCollisions_spec.
  destruct (_ && _); [right|left].
  - cbn [effects player emit set_player Player.jump Player.dy].
    rewrite effects_before_collisions. split; reflexivity.
  - apply effects_before_collisions.
Qed.

Lemma frame_bounce inp g :
  bounces (effects (frame inp g)) = bounces (effects g)
  \/ (bounces (effects (frame inp g)) = S (bounces (effects g))
      /\ Player.dy (player (frame inp g)) = F32.neg (F32.of_int 8)).
Proof.
  assert (Hdraw : forall b q,
    effects q = effects g
    \/ (effects q = effects g ++ [SoundPlay]
        /\ Player.dy (player q) = F32.neg (F32.of_int 8)) ->
    frame inp g = set_window_isOpen b (draw q) ->
    bounces (effects (frame inp g)) = bounces (effects g)
    \/ (bounces (effects (frame inp g)) = S (bounces (effects g))
        /\ Player.dy (player (frame inp g)) = F32.neg (F32.of_int 8))).
  { intros b q Hq Hf. rewrite Hf, draw_eq.
    change (effects (set_window_isOpen b (add_effects (presentation q) q)))
      with (effects q ++ presentation q).
    change (player (set_window_isOpen b (add_effects (presentation q) q)))
      with (player q).
    rewrite bounces_app, bounces_presentation, Nat.add_0_r.
    destruct Hq as [Hq|[Hq Hdy]]; rewrite Hq.
    - left. reflexivity.
    - right. split; [apply bounces_snoc|exact Hdy]. }
  destruct (gameOver g) eqn:Hover.
  - destruct (frame_over inp g Hover) as [b Hb].
    destruct (window_isOpen g && retry_pressed (events inp)).
    + apply (Hdraw b (physics inp (resetGame g))); [|exact Hb].
      assert (He : effects (resetGame g) = effects g)
        by (rewrite resetGame_eq; reflexivity).
      rewrite <- He. apply physics_bounce.
    + apply (Hdraw b g); [left; reflexivity|exact Hb].
  - destruct (frame_playing inp g Hover) as [b Hb].
    apply (Hdraw b (physics inp g)); [apply physics_bounce|exact Hb].
Qed.

(** X12: a frame plays the bounce at most once, and when it plays it
    the vertical velocity of the player at the end of the frame is
    -8.0. *)
Theorem X12_one_bounce_a_frame (inp : FrameInput) (g : Game) :
  (bounces (effects (frame inp g)) <= S (bounces (effects g)))%nat
  /\ (bounces (effects g) <= bounces (effects (frame inp g)))%nat
  /\ (bounces (effects (frame inp g)) = S (bounces (effects g)) ->
      Player.getVelocityY (player (frame inp g)) = F32.neg (F32.of_int 8)).
Proof.
  destruct (frame_bounce inp g) as [H|[H Hdy]]; rewrite H.
  - split; [lia|]. split; [lia|]. intros Habs. lia.
  - split; [lia|]. split; [lia|]. intros _. exact Hdy.
Qed.

Lemma physics_synced inp g : text_synced (physics inp g).
Proof.
  unfold text_synced, physics.
  rewrite handleCollisions_scoreText, handleCollisions_score, updatePlatforms_spec.
  reflexivity.
Qed.

Lemma resetGame_synced g : text_synced (resetGame g).
Proof. unfold text_synced. rewrite resetGame_eq. vm_compute. reflexivity. Qed.

Lemma Game_new_playing font_ok sound_ok :
  gameOver (Game_new font_ok sound_ok) = false
  /\ window_isOpen (Game_new font_ok sound_ok) = true.
Proof.
  unfold Game_new. destruct font_ok, sound_ok; cbn [negb];
    try (rewrite resetGame_eq); split; reflexivity.
Qed.

(** X13: from the end of the first frame on, the text of the score of
    the program is the text of its current score, whether or not the
    font and the sound were loaded. *)
Theorem X13_score_text_follows_score (font_ok sound_ok : bool)
        (inp : FrameInput) (rest : list FrameInput) :
  scoreText (main font_ok sound_ok (inp :: rest))
  = score_text (score (main font_ok sound_ok (inp :: rest))).
Proof.
  unfold main. cbn [run].
  destruct (Game_new_playing font_ok sound_ok) as [Hover W]. rewrite W.
  apply (run_invariant text_synced).
  - apply frame_keeps.
    + intros b g H. exact H.
    + intros l g H. exact H.
    + apply resetGame_synced.
    + intros i g _. apply physics_synced.
  - unfold text_synced.
    pose proof (frame_playing_core inp _ Hover) as Hc.
    rewrite (core_scoreText _ _ Hc), (core_score _ _ Hc).
    apply physics_synced.
Qed.

(** X14: the text of the score tells the score: two scores with the
    same text are equal. *)
Theorem X14_score_text_injective (n m : Z) :
  score_text n = score_text m -> n = m.
Proof.
  unfold score_text. intros H.
  assert (Hs : NilZero.string_of_int (Z.to_int n)
               = NilZero.string_of_int (Z.to_int m)).
  { cbn [String.append] in H. injection H as H. exact H. }
  assert (Hnn : forall z, Z.to_int z <> Decimal.Pos Decimal.Nil
                          /\ Z.to_int z <> Decimal.Neg Decimal.Nil).
  { intros [|p|p]; cbn [Z.to_int]; split; try discriminate;
      intros Hp; injection Hp as Hp; exact (DecimalPos.Unsigned.to_uint_nonnil p Hp). }
  apply (f_equal NilZero.int_of_string) in Hs.
  rewrite !NilZero.isi in Hs by apply Hnn.
  injection Hs as Hs. apply DecimalZ.to_int_inj, Hs.
Qed.

Lemma rand_calls_before_platforms inp g :
  rand_calls (scrollUp (fallOutCheck (playerUpdate (handleInput inp g))))
  = rand_calls g.
Proof.
  rewrite scrollUp_rand_calls, fallOutCheck_rand_calls. unfold playerUpdate.
  cbn [rand_calls set_player]. apply handleInput_rand_calls.
Qed.

Lemma physics_rand_calls inp g :
  rand_calls (physics inp g) =
  (rand_calls g
   + recycled
       (Player.dy (player (scrollUp (fallOutCheck (playerUpdate (handleInput inp g))))))
       (platforms (scrollUp (fallOutCheck (playerUpdate (handleInput inp g))))))%nat.
Proof.
  unfold physics.
  rewrite handleCollisions_rand_calls, updatePlatforms_spec. cbn [rand_calls].
  rewrite rand_calls_before_platforms. reflexivity.
Qed.

(** X15: in a frame of play [rand()] is called once for every platform
    sent back to the top and never otherwise, so the calls made in the
    frame are as many as the points scored in it (for a score that stays
    in the range of [int]). *)
Theorem X15_one_rand_call_a_point (inp : FrameInput) (g : Game) :
  gameOver g = false ->
  0 <= score g ->
  score g + Z.of_nat (List.length (platforms g)) <= INT_MAX ->
  (rand_calls g <= rand_calls (frame inp g))%nat
  /\ Z.of_nat (rand_calls (frame inp g) - rand_calls g) = score (frame inp g) - score g.
Proof.
  intros H H0 Hmax.
  pose proof (frame_playing_core inp g H) as Hc.
  rewrite (core_rand_calls _ _ Hc), (core_score _ _ Hc).
  rewrite physics_rand_calls, physics_score.
  pose proof (recycled_le
    (Player.dy (player (scrollUp (fallOutCheck (playerUpdate (handleInput inp g))))))
    (platforms (scrollUp (fallOutCheck (playerUpdate (handleInput inp g)))))) as Hr.
  rewrite length_before_platforms in Hr.
  rewrite iter_incr_score by lia. lia.
Qed.

Lemma same_float_eq a b : same_float a b = true -> a = b.
Proof.
  destruct a as [s|s| |s m e], b as [s'|s'| |s' m' e']; cbn [same_float];
    try discriminate; try reflexivity.
  - intros H. apply Bool.eqb_prop in H. congruence.
  - intros H. apply Bool.eqb_prop in H. congruence.
  - intros H. apply andb_true_iff in H. destruct H as [H He].
    apply andb_true_iff in H. destruct H as [Hs Hm].
    apply Bool.eqb_prop in Hs. apply Pos.eqb_eq in Hm. apply Z.eqb_eq in He.
    congruence.
Qed.

Lemma left_right_table :
  forallb
    (fun k =>
       same_float
         (F32.add (F32.sub (F32.of_int (Z.of_nat k - 2000)) (F32.of_int 5))
                  (F32.of_int 5))
         (F32.of_int (Z.of_nat k - 2000)))
    (seq 0 4001)
  = true.
Proof. vm_compute. reflexivity. Qed.

Lemma left_right_cancel n :
  -2000 <= n <= 2000 ->
  F32.add (F32.sub (F32.of_int n) (F32.of_int 5)) (F32.of_int 5) = F32.of_int n.
Proof.
  intros Hn. pose proof left_right_table as Ht.
  rewrite forallb_forall in Ht.
  specialize (Ht (Z.to_nat (n + 2000))).
  replace (Z.of_nat (Z.to_nat (n + 2000)) - 2000) with n in Ht by lia.
  apply same_float_eq, Ht. apply in_seq. lia.
Qed.

(** X16: with Left and Right both held, [handleInput] moves the player
    5 to the left and then 5 to the right, which leaves the game as it
    was when the abscissa of the player is an integer of
    [-2000 .. 2000]. *)
Theorem X16_left_and_right_cancel (evs : list Event) (n : Z) (g : Game) :
  -2000 <= n <= 2000 ->
  Vector2f.x (Player.getPosition (player g)) = F32.of_int n ->
  handleInput (mkInput evs true true) g = g.
Proof.
  intros Hn Hx. destruct g as [w [[px py] pdx pdy] ps s go st rc ef].
  cbn [player Player.getPosition Player.position Vector2f.x] in Hx. subst px.
  cbv beta iota zeta delta
      [handleInput key_Left key_Right player set_player Player.moveLeft
       Player.moveRight Player.position Player.dx Player.dy Vector2f.x Vector2f.y
       window_isOpen platforms score gameOver scoreText rand_calls effects].
  rewrite (left_right_cancel n Hn). reflexivity.
Qed.

(** X17: [draw] changes nothing of the simulation; it clears the
    window, draws the background and ends with the display of the
    window; when the game is over it draws the two texts of the end and
    neither the player, the platforms nor the score; otherwise it draws
    the player, every platform in the order of the collection, and the
    text of the score. *)
Theorem X17_draw_shows_the_state (g : Game) :
  core (draw g) = core g
  /\ window_isOpen (draw g) = window_isOpen g
  /\ exists shown,
      effects (draw g)
      = effects g ++ [WindowClear; DrawBackground] ++ shown ++ [WindowDisplay]
      /\ (gameOver g = true -> shown = [DrawGameOverText; DrawRetryText])
      /\ (gameOver g = false ->
          shown = DrawPlayer (Player.getPosition (player g))
                    :: map (fun p => DrawPlatform (Platform.getPosition p)) (platforms g)
                    ++ [DrawScoreText (scoreText g)]).
Proof.
  rewrite draw_eq. split; [reflexivity|]. split; [reflexivity|].
  cbn [effects add_effects]. unfold presentation. destruct (gameOver g).
  - exists [DrawGameOverText; DrawRetryText]. split; [reflexivity|].
    split; [reflexivity|]. intros H. discriminate H.
  - eexists. split; [|split; [intros H; discriminate H|intros _; reflexivity]].
    cbn [app]. reflexivity.
Qed.

(** X18: a frame of play that does not end the game draws, last before
    the display of the window, the text of the score the frame ends
    with. *)
Theorem X18_drawn_score_is_current (inp : FrameInput) (g : Game) :
  gameOver g = false ->
  gameOver (frame inp g) = false ->
  exists before,
    effects (frame inp g)
    = before ++ [DrawScoreText (score_text (score (frame inp g))); WindowDisplay].
Proof.
  intros H Hend.
  pose proof (frame_playing_core inp g H) as Hc.
  rewrite (core_gameOver _ _ Hc) in Hend.
  rewrite (frame_playing_effects inp g H), (core_score _ _ Hc).
  unfold presentation. rewrite Hend.
  rewrite <- (physics_synced inp g).
  exists (effects (physics inp g)
          ++ [WindowClear; DrawBackground;
              DrawPlayer (Player.getPosition (player (physics inp g)))]
          ++ map (fun p => DrawPlatform (Platform.getPosition p))
                 (platforms (physics inp g))).
  rewrite <- !app_assoc. reflexivity.
Qed.

Lemma scrollUp_y_clamped g :
  F32.ltb (Vector2f.y (Player.position (player g))) (F32.of_int 300) = true ->
  Vector2f.y (Player.position (player (scrollUp g))) = F32.of_int 300.
Proof.
  intros H. unfold scrollUp, Player.getPosition. rewrite H. reflexivity.
Qed.

(** X19: the frame that handles the retry already plays: at its end
    the game is not over, it holds 10 platforms, and the player, put
    back at y = 200 and moved by the gravity, has been taken by the
    scroll to y = 300 exactly. *)
Theorem X19_retry_frame_plays (inp : FrameInput) (g : Game) :
  gameOver g = true ->
  window_isOpen g && retry_pressed (events inp) = true ->
  gameOver (frame inp g) = false
  /\ List.length (platforms (frame inp g)) = 10%nat
  /\ Vector2f.y (Player.getPosition (player (frame inp g))) = F32.of_int 300.
Proof.
  intros H Hretry. split; [|split].
  - destruct (frame_over inp g H) as [b Hb]. rewrite Hretry in Hb.
    rewrite Hb, draw_eq. apply physics_after_reset.
  - rewrite frame_length, H, Hretry. reflexivity.
  - destruct (frame_over inp g H) as [b Hb]. rewrite Hretry in Hb.
    rewrite Hb, draw_eq. cbn [player set_window_isOpen add_effects].
    unfold Player.getPosition, physics.
    rewrite handleCollisions_position, updatePlatforms_player.
    apply scrollUp_y_clamped. rewrite fallOutCheck_player.
    pose proof (y_after_update inp (resetGame g)) as Hy.
    unfold Player.getPosition in Hy. rewrite Hy, resetGame_eq.
    cbn [player Player.position Player.dy Vector2f.y].
    vm_compute. reflexivity.
Qed.


(** ** The velocities that a game reaches *)










End GameModel.

(** ** The scenarios of the specification, run *)

(** The player at y = 250: the offset is 50, the player is put at
    y = 300 and the platform goes from y = 400 to y = 450. *)
Lemma scroll_scenario :
  player (scrollUp game_scroll) = player_at 200 300 (F32.of_int 0)
  /\ platforms (scrollUp game_scroll) = [platform_at 100 450].
Proof. vm_compute. split; reflexivity. Qed.

(** A platform at y = 705: it is put at y = 0, here at x = 499, and the
    score goes from 0 to 1. *)
Lemma recycle_scenario :
  platforms (updatePlatforms rand_499 game_recycle) = [platform_at 499 0]
  /\ score (updatePlatforms rand_499 game_recycle) = 1.
Proof. vm_compute. split; reflexivity. Qed.

(** Overlapping boxes: with the velocity +3 the velocity becomes -8.0,
    with -3 nothing changes. *)
Lemma collision_scenario :
  Player.dy (player (handleCollisions game_two_hits)) = F32.neg (F32.of_int 8)
  /\ handleCollisions
       (game_with (player_at 200 300 (F32.of_int (-3)))
                  [platform_at 200 365; platform_at 210 366] false)
     = game_with (player_at 200 300 (F32.of_int (-3)))
                 [platform_at 200 365; platform_at 210 366] false.
Proof. vm_compute. split; reflexivity. Qed.

(** The frame in which the player leaves the window still sends the
    platform back to the top and counts it. *)
Lemma game_over_frame_scores :
  gameOver (frame rand_499 true idle game_falling) = true
  /\ score (frame rand_499 true idle game_falling) = 1
  /\ platforms (frame rand_499 true idle game_falling) = [platform_at 499 0].
Proof. vm_compute. repeat split; reflexivity. Qed.

(** ** The sentences of the specification that fail *)

(** C2, as stated, fails: with the player at y = 250 the platform at
    y = 400 is not moved to y = 350 (it goes to y = 450, see
    [scroll_scenario]). *)
Lemma C2_counterexample : ~ scroll_moves_platforms_up game_scroll.
Proof.
  unfold scroll_moves_platforms_up. intros H.
  assert (Hlt : F32.ltb (Vector2f.y (Player.getPosition (player game_scroll)))
                        (F32.of_int 300) = true) by (vm_compute; reflexivity).
  specialize (H Hlt). vm_compute in H. discriminate H.
Qed.

(** C3, as stated, fails: when [rand()] returns 499 the platform is put
    at x = 499, which is above 500 - 68. *)
Lemma C3_counterexample :
  ~ recycled_inside_window rand_499 (platform_at 100 705) game_recycle.
Proof.
  unfold recycled_inside_window. intros H.
  assert (Hr : recycles (Player.dy (player game_recycle)) (platform_at 100 705) = true)
    by (vm_compute; reflexivity).
  destruct (H Hr) as [_ Hle]. vm_compute in Hle. discriminate Hle.
Qed.

(** C4, as stated, fails: with two platforms under the feet of the
    player the bounce is played once, not twice. *)
Lemma C4_counterexample : ~ all_overlaps_hit game_two_hits.
Proof.
  unfold all_overlaps_hit. intros H.
  assert (Hv : F32.gtb (Player.dy (player game_two_hits)) (F32.of_int 0) = true)
    by (vm_compute; reflexivity).
  specialize (H Hv). vm_compute in H. discriminate H.
Qed.

(** ** The theorems at concrete games *)

Lemma C1_frame_order_witness :
  gameOver game_high = false
  /\ core (frame rand_499 true idle game_high)
     = core (handleCollisions
               (updatePlatforms rand_499
                  (scrollUp (fallOutCheck (playerUpdate (handleInput idle game_high)))))).
Proof.
  split; [reflexivity|].
  exact (proj1 (C1_frame_order rand_499 true idle game_high eq_refl)).
Defined.

Lemma C2_scroll_shift_witness :
  (gameOver game_high = false
   /\ F32.ltb (Vector2f.y (Player.getPosition
                 (player (fallOutCheck (playerUpdate (handleInput idle game_high))))))
              (F32.of_int 300) = true
   /\ List.length
        (platforms (scrollUp (fallOutCheck (playerUpdate (handleInput idle game_high)))))
      = List.length (platforms game_high))
  /\ (gameOver game_low = false
      /\ F32.leb (F32.of_int 300)
                 (Vector2f.y (Player.getPosition
                    (player (fallOutCheck (playerUpdate (handleInput idle game_low))))))
         = true
      /\ scrollUp (fallOutCheck (playerUpdate (handleInput idle game_low)))
         = fallOutCheck (playerUpdate (handleInput idle game_low))).
Proof.
  split.
  - split; [reflexivity|].
    assert (Hlt : F32.ltb (Vector2f.y (Player.getPosition
                    (player (fallOutCheck (playerUpdate (handleInput idle game_high))))))
                  (F32.of_int 300) = true) by (vm_compute; reflexivity).
    split; [exact Hlt|].
    exact (proj2 (proj2 (proj1 (proj2
             (C2_scroll_shift rand_499 true idle game_high eq_refl)) Hlt))).
  - split; [reflexivity|].
    assert (Hge : F32.leb (F32.of_int 300)
                    (Vector2f.y (Player.getPosition
                       (player (fallOutCheck (playerUpdate (handleInput idle game_low))))))
                  = true) by (vm_compute; reflexivity).
    split; [exact Hge|].
    exact (proj2 (proj2 (C2_scroll_shift rand_499 true idle game_low eq_refl)) Hge).
Defined.

Lemma C3_recycle_and_score_witness :
  update_platform rand_499 (platform_at 100 400) game_low
  = (platform_at 100 400, game_low)
  /\ score (snd (update_platform rand_499 (platform_at 100 705) game_recycle)) = 0 + 1
  /\ score game_recycle <= score (frame rand_499 true idle game_recycle).
Proof.
  split; [|split].
  - assert (Hno : F32.gtb
                    (F32.sub (Vector2f.y (Platform.getPosition (platform_at 100 400)))
                             (Player.getVelocityY (player game_low)))
                    (F32.of_int 700) = false) by (vm_compute; reflexivity).
    rewrite (proj1 (C3_recycle_and_score rand_499 true idle game_low
                      (platform_at 100 400)) Hno).
    vm_compute. reflexivity.
  - assert (Hyes : F32.gtb
                     (F32.sub (Vector2f.y (Platform.getPosition (platform_at 100 705)))
                              (Player.getVelocityY (player game_recycle)))
                     (F32.of_int 700) = true) by (vm_compute; reflexivity).
    destruct (proj1 (proj2 (C3_recycle_and_score rand_499 true idle game_recycle
                              (platform_at 100 705))) Hyes)
      as (r & _ & _ & _ & _ & Hone).
    apply Hone. vm_compute. split; [discriminate|reflexivity].
  - assert (H0 : 0 <= score game_recycle) by (vm_compute; discriminate).
    assert (Hmax : score game_recycle
                   + Z.of_nat (List.length (platforms game_recycle)) <= INT_MAX)
      by (vm_compute; discriminate).
    exact (proj2 (proj2 (proj2 (proj2
             (proj2 (proj2 (C3_recycle_and_score rand_499 true idle game_recycle
                              (platform_at 100 705))) eq_refl))) H0 Hmax)).
Defined.

Lemma C4_one_hit_per_pass_witness :
  bounces (effects (handleCollisions game_two_hits)) = S (bounces (effects game_two_hits))
  /\ handleCollisions game_low = game_low
  /\ handleCollisions game_two_hits
     = fold_left collide [platform_at 200 365] game_two_hits.
Proof.
  split; [|split].
  - assert (Hhit : some_overlap (player game_two_hits) (platforms game_two_hits)
                   && F32.gtb (Player.getVelocityY (player game_two_hits)) (F32.of_int 0)
                   = true) by (vm_compute; reflexivity).
    exact (proj2 (proj2 (proj1 (C4_one_hit_per_pass game_two_hits) Hhit))).
  - assert (Hno : some_overlap (player game_low) (platforms game_low)
                  && F32.gtb (Player.getVelocityY (player game_low)) (F32.of_int 0)
                  = false) by (vm_compute; reflexivity).
    exact (proj1 (proj2 (C4_one_hit_per_pass game_low)) Hno).
  - assert (Hfirst : some_overlap (player game_two_hits) [platform_at 200 365]
                     && F32.gtb (Player.getVelocityY (player game_two_hits))
                                (F32.of_int 0)
                     = true) by (vm_compute; reflexivity).
    exact (proj2 (proj2 (proj2 (proj2 (C4_one_hit_per_pass game_two_hits))
                           [platform_at 200 365] [platform_at 210 366]
                           eq_refl Hfirst))).
Defined.


Lemma C6_collision_trigger_witness :
  (effects (collide game_two_hits (platform_at 200 365))
   = effects game_two_hits ++ [SoundPlay]
   /\ Player.getVelocityY (player (collide game_two_hits (platform_at 200 365)))
      = F32.neg (F32.of_int 8))
  /\ collide game_low (platform_at 100 400) = game_low
  /\ collide (game_with (player_at 200 300 (F32.of_int (-3)))
                        [platform_at 200 365] false)
             (platform_at 200 365)
     = game_with (player_at 200 300 (F32.of_int (-3))) [platform_at 200 365] false.
Proof.
  split; [|split].
  - apply (proj2 (proj1 (C6_collision_trigger game_two_hits (platform_at 200 365)))).
    vm_compute. repeat split; reflexivity.
  - apply (proj1 (proj2 (C6_collision_trigger game_low (platform_at 100 400)))).
    intros [He _]. vm_compute in He. discriminate He.
  - apply (proj2 (proj2 (C6_collision_trigger
                           (game_with (player_at 200 300 (F32.of_int (-3)))
                                      [platform_at 200 365] false)
                           (platform_at 200 365)))).
    vm_compute. reflexivity.
Defined.

Lemma C7_game_over_flag_witness :
  (gameOver game_high = false /\ gameOver (frame rand_499 true idle game_high) = false)
  /\ (gameOver game_lost = true /\ gameOver (frame rand_499 true retry game_lost) = false)
  /\ (gameOver game_lost = true
      /\ core (frame rand_499 true idle game_lost) = core game_lost).
Proof.
  split; [|split].
  - split; [reflexivity|].
    rewrite (proj1 (C7_game_over_flag rand_499 true idle game_high) eq_refl).
    vm_compute. reflexivity.
  - split; [reflexivity|].
    apply (proj2 (proj1 (proj2 (proj2 (C7_game_over_flag rand_499 true retry game_lost)
                                  eq_refl)))).
    vm_compute. reflexivity.
  - split; [reflexivity|].
    apply (proj2 (proj2 (proj2 (C7_game_over_flag rand_499 true idle game_lost)
                           eq_refl))).
    vm_compute. reflexivity.
Defined.

Lemma C10_game_over_frame_completes_witness :
  gameOver game_falling = false
  /\ gameOver (frame rand_499 true idle game_falling) = true
  /\ core (frame rand_499 true idle (frame rand_499 true idle game_falling))
     = core (frame rand_499 true idle game_falling).
Proof.
  assert (Hfall : F32.gtb (Vector2f.y (Player.getPosition
                     (player (playerUpdate (handleInput idle game_falling)))))
                   (F32.of_int 700) = true) by (vm_compute; reflexivity).
  pose proof (C10_game_over_frame_completes rand_499 true idle game_falling
                eq_refl Hfall) as (_ & _ & _ & Hover & _ & Hnext).
  split; [reflexivity|]. split; [exact Hover|].
  apply Hnext. vm_compute. reflexivity.
Defined.

(** ** The further theorems at concrete games *)

Lemma X1_keys_only_steer_witness :
  gameOver game_high = false
  /\ platforms (frame rand_499 true (mkInput [] true false) game_high)
     = platforms (updatePlatforms rand_499
                    (scrollUp (fallOutCheck (playerUpdate game_high)))).
Proof.
  split; [reflexivity|].
  exact (proj1 (X1_keys_only_steer rand_499 true (mkInput [] true false)
                  game_high eq_refl)).
Defined.

Lemma X2_player_kept_under_line_witness :
  gameOver game_high = false
  /\ F32.ltb (Vector2f.y (Player.getPosition
                (player (frame rand_499 true idle game_high))))
             (F32.of_int 300) = false.
Proof.
  split; [reflexivity|].
  exact (X2_player_kept_under_line rand_499 true idle game_high (or_introl eq_refl)).
Defined.

Lemma X3_no_platform_below_bottom_witness :
  gameOver game_recycle = false
  /\ Forall (fun p => F32.gtb (Vector2f.y (Platform.getPosition p)) (F32.of_int 700)
                      = false)
            (platforms (frame rand_499 true idle game_recycle)).
Proof.
  split; [reflexivity|].
  exact (X3_no_platform_below_bottom rand_499 true idle game_recycle eq_refl).
Defined.

Lemma X7_score_bounded_by_frames_witness :
  10 * Z.of_nat (List.length [idle; idle]) <= INT_MAX
  /\ 0 <= score (main rand_499 true true true [idle; idle])
       <= 10 * Z.of_nat (List.length [idle; idle]).
Proof.
  assert (H : 10 * Z.of_nat (List.length [idle; idle]) <= INT_MAX)
    by (vm_compute; discriminate).
  split; [exact H|].
  exact (X7_score_bounded_by_frames rand_499 true true true [idle; idle] H).
Defined.

Lemma X8_game_over_is_kept_witness :
  gameOver game_lost = true
  /\ core (run rand_499 true [idle; idle] game_lost) = core game_lost.
Proof.
  split; [reflexivity|].
  apply (X8_game_over_is_kept rand_499 true [idle; idle] game_lost eq_refl).
  repeat constructor.
Defined.

Lemma X10_keys_R_Escape_ignored_in_play_witness :
  gameOver game_high = false
  /\ window_isOpen
       (frame rand_499 true (mkInput [mkEvent false true true] false false) game_high)
     = window_isOpen game_high
       && negb (existsb ev_closed [mkEvent false true true]).
Proof.
  split; [reflexivity|].
  exact (proj2 (X10_keys_R_Escape_ignored_in_play rand_499 true
                  (mkInput [mkEvent false true true] false false)
                  game_high eq_refl)).
Defined.

Lemma X11_escape_closes_when_over_witness :
  (gameOver game_lost = true /\ window_isOpen game_lost = true
   /\ no_retry (mkInput [mkEvent false false true] false false))
  /\ window_isOpen
       (frame rand_499 true (mkInput [mkEvent false false true] false false) game_lost)
     = negb (existsb (fun e => ev_closed e || ev_key_Escape e)
                     [mkEvent false false true]).
Proof.
  split; [repeat split; reflexivity|].
  exact (proj2 (X11_escape_closes_when_over rand_499 true
                  (mkInput [mkEvent false false true] false false)
                  game_lost eq_refl eq_refl eq_refl)).
Defined.

Lemma X12_one_bounce_a_frame_witness :
  bounces (effects (frame rand_499 true idle game_two_hits))
  = S (bounces (effects game_two_hits))
  /\ Player.getVelocityY (player (frame rand_499 true idle game_two_hits))
     = F32.neg (F32.of_int 8).
Proof.
  assert (H : bounces (effects (frame rand_499 true idle game_two_hits))
              = S (bounces (effects game_two_hits))) by (vm_compute; reflexivity).
  split; [exact H|].
  exact (proj2 (proj2 (X12_one_bounce_a_frame rand_499 true idle game_two_hits)) H).
Defined.

Lemma X14_score_text_injective_witness :
  score_text 7 = score_text (3 + 4) /\ 7 = 3 + 4.
Proof.
  assert (H : score_text 7 = score_text (3 + 4)) by (vm_compute; reflexivity).
  split; [exact H|]. exact (X14_score_text_injective 7 (3 + 4) H).
Defined.

Lemma X15_one_rand_call_a_point_witness :
  (gameOver game_recycle = false /\ 0 <= score game_recycle
   /\ score game_recycle + Z.of_nat (List.length (platforms game_recycle)) <= INT_MAX)
  /\ Z.of_nat (rand_calls (frame rand_499 true idle game_recycle)
               - rand_calls game_recycle)
     = score (frame rand_499 true idle game_recycle) - score game_recycle.
Proof.
  assert (H0 : 0 <= score game_recycle) by (vm_compute; discriminate).
  assert (Hmax : score game_recycle
                 + Z.of_nat (List.length (platforms game_recycle)) <= INT_MAX)
    by (vm_compute; discriminate).
  split; [split; [reflexivity|split; [exact H0|exact Hmax]]|].
  exact (proj2 (X15_one_rand_call_a_point rand_499 true idle game_recycle
                  eq_refl H0 Hmax)).
Defined.

Lemma X16_left_and_right_cancel_witness :
  (-2000 <= 200 <= 2000
   /\ Vector2f.x (Player.getPosition (player game_high)) = F32.of_int 200)
  /\ handleInput (mkInput [] true true) game_high = game_high.
Proof.
  assert (Hn : -2000 <= 200 <= 2000) by lia.
  split; [split; [exact Hn|reflexivity]|].
  exact (X16_left_and_right_cancel [] 200 game_high Hn eq_refl).
Defined.

Lemma X17_draw_shows_the_state_witness :
  (gameOver game_lost = true
   /\ exists shown,
       effects (draw game_lost)
       = effects game_lost ++ [WindowClear; DrawBackground] ++ shown ++ [WindowDisplay]
       /\ shown = [DrawGameOverText; DrawRetryText])
  /\ (gameOver game_high = false
      /\ exists shown,
          effects (draw game_high)
          = effects game_high ++ [WindowClear; DrawBackground] ++ shown
              ++ [WindowDisplay]
          /\ shown = DrawPlayer (Player.getPosition (player game_high))
                       :: map (fun p => DrawPlatform (Platform.getPosition p))
                              (platforms game_high)
                       ++ [DrawScoreText (scoreText game_high)]).
Proof.
  split.
  - split; [reflexivity|].
    destruct (proj2 (proj2 (X17_draw_shows_the_state game_lost)))
      as (shown & He & Hover & _).
    exists shown. split; [exact He|exact (Hover eq_refl)].
  - split; [reflexivity|].
    destruct (proj2 (proj2 (X17_draw_shows_the_state game_high)))
      as (shown & He & _ & Hplay).
    exists shown. split; [exact He|exact (Hplay eq_refl)].
Defined.

Lemma X18_drawn_score_is_current_witness :
  (gameOver game_high = false /\ gameOver (frame rand_499 true idle game_high) = false)
  /\ exists before,
      effects (frame rand_499 true idle game_high)
      = before ++ [DrawScoreText
                     (score_text (score (frame rand_499 true idle game_high)));
                   WindowDisplay].
Proof.
  assert (Hend : gameOver (frame rand_499 true idle game_high) = false)
    by (vm_compute; reflexivity).
  split; [split; [reflexivity|exact Hend]|].
  exact (X18_drawn_score_is_current rand_499 true idle game_high eq_refl Hend).
Defined.

Lemma X19_retry_frame_plays_witness :
  (gameOver game_lost = true
   /\ window_isOpen game_lost && retry_pressed (events retry) = true)
  /\ Vector2f.y (Player.getPosition (player (frame rand_499 true retry game_lost)))
     = F32.of_int 300.
Proof.
  split; [split; reflexivity|].
  exact (proj2 (proj2 (X19_retry_frame_plays rand_499 true retry game_lost
                         eq_refl eq_refl))).
Defined.
